(** * Presence registry and event relay of [configurations/socket.js]

    A shallow embedding of the socket.io handlers of the server, of the
    chat services that read the same registry, and the properties of the
    presence engine that are stated about them.

    Modelling choices.
    - [users] is a plain JavaScript object used as a map.  It is an
      association list kept in the order [Object.entries] enumerates own
      keys: array-index keys first, ascending, then the other keys in the
      order they were created.  Keys inherited from [Object.prototype] are
      outside the model.
    - [socketIds] is a [Set]: a duplicate-free list in insertion order, the
      order [forEach] visits.
    - A payload is an object; its fields are JavaScript values and a field
      that is absent reads as [VUndefined].  Numbers are carried as
      integers, no arithmetic is done on them.
    - Each handler runs as one step, from the event to its last emit: what
      other handlers do while one is suspended in an [await] is not
      modelled.  The awaited store operations of a handler either succeed
      or throw; the flag [db_ok] of the step says which.
    - Output is an effect trace in program order: pushes to sockets, writes
      that reached the [HangoutUser] collection, [console.error] lines and
      the [console.log] lines that report a dropped event.  The other
      [console.log] lines are tracing and left out.
    - The [Message] collection is part of the state, with the meaning
      MongoDB gives the filter and the update of [updateMany]. *)

From Stdlib Require Import String Ascii List ZArith NArith Bool Lia Permutation.
From Stdlib Require Import DecimalString.
Import ListNotations.
Local Open Scope string_scope.
Local Open Scope list_scope.

(** ** JavaScript values *)

Inductive jsval : Type :=
| VUndefined
| VNull
| VBool (b : bool)
| VNum (n : Z)
| VStr (s : string).

(** [v || d] takes [d] exactly when [v] is falsy. *)
Definition truthy (v : jsval) : bool :=
  match v with
  | VUndefined | VNull => false
  | VBool b => b
  | VNum n => negb (Z.eqb n 0)
  | VStr s => negb (String.eqb s "")
  end.

Definition js_or (v d : jsval) : jsval := if truthy v then v else d.

(** [typeof v === 'number'] *)
Definition is_number (v : jsval) : bool :=
  match v with VNum _ => true | _ => false end.

Definition string_of_Z (n : Z) : string :=
  NilZero.string_of_int (Z.to_int n).

(** The property key a value is converted to in [users[v]] (for a
    number, the decimal form integers have below [10^21]). *)
Definition to_key (v : jsval) : string :=
  match v with
  | VUndefined => "undefined"
  | VNull => "null"
  | VBool true => "true"
  | VBool false => "false"
  | VNum n => string_of_Z n
  | VStr s => s
  end.

(** ** [Set<string>] *)

Module StrSet.

Definition t := list string.

Definition empty : t := [].

Definition has (x : string) (s : t) : bool :=
  existsb (String.eqb x) s.

Definition add (x : string) (s : t) : t :=
  if has x s then s else s ++ [x].

Definition delete (x : string) (s : t) : t :=
  filter (fun y => negb (String.eqb x y)) s.

Definition size (s : t) : nat := length s.

End StrSet.

(** ** Plain objects used as maps *)

Module Obj.

(** A key is an array index when it is the canonical decimal form of an
    integer below [2^32 - 1]. *)
Definition array_index (k : string) : option N :=
  match NilEmpty.uint_of_string k with
  | Some d =>
      let n := N.of_uint d in
      if (String.eqb (NilZero.string_of_uint (N.to_uint n)) k
          && N.ltb n 4294967295)%bool
      then Some n else None
  | None => None
  end.

Section WithValue.
Context {V : Type}.

Definition t := list (string * V).

Fixpoint get (k : string) (o : t) : option V :=
  match o with
  | [] => None
  | (k', v) :: o' => if String.eqb k k' then Some v else get k o'
  end.

(** Where a key that is not yet present goes. *)
Fixpoint insert_index (n : N) (k : string) (v : V) (o : t) : t :=
  match o with
  | [] => [(k, v)]
  | (k', v') :: o' =>
      match array_index k' with
      | Some m => if N.ltb m n then (k', v') :: insert_index n k v o'
                  else (k, v) :: o
      | None => (k, v) :: o
      end
  end.

Definition insert_new (k : string) (v : V) (o : t) : t :=
  match array_index k with
  | Some n => insert_index n k v o
  | None => o ++ [(k, v)]
  end.

Fixpoint replace (k : string) (v : V) (o : t) : t :=
  match o with
  | [] => []
  | (k', v') :: o' =>
      if String.eqb k k' then (k', v) :: o' else (k', v') :: replace k v o'
  end.

(** [o[k] = v] *)
Definition set (k : string) (v : V) (o : t) : t :=
  match get k o with
  | Some _ => replace k v o
  | None => insert_new k v o
  end.

(** [delete o[k]] *)
Definition delete (k : string) (o : t) : t :=
  filter (fun kv => negb (String.eqb k (fst kv))) o.

Definition keys (o : t) : list string := map fst o.

End WithValue.

Arguments t : clear implicits.

End Obj.

(** ** The in-memory user store *)

Module Entry.

(** One value of [users]: [{ socketIds, firstName, lastName, x, y, tableId }]. *)
Record t : Type := mk {
  socketIds : StrSet.t;
  firstName : jsval;
  lastName : jsval;
  x : jsval;
  y : jsval;
  tableId : jsval
}.

Definition with_socketIds (s : StrSet.t) (e : t) : t :=
  mk s (firstName e) (lastName e) (x e) (y e) (tableId e).

Definition with_xy (vx vy : jsval) (e : t) : t :=
  mk (socketIds e) (firstName e) (lastName e) vx vy (tableId e).

Definition with_tableId (v : jsval) (e : t) : t :=
  mk (socketIds e) (firstName e) (lastName e) (x e) (y e) v.

(** What a property read [e.name] yields. *)
Inductive property : Type :=
| PValue (v : jsval)
| PSet (s : StrSet.t).

Definition prop (name : string) (e : t) : property :=
  if String.eqb name "socketIds" then PSet (socketIds e)
  else if String.eqb name "firstName" then PValue (firstName e)
  else if String.eqb name "lastName" then PValue (lastName e)
  else if String.eqb name "x" then PValue (x e)
  else if String.eqb name "y" then PValue (y e)
  else if String.eqb name "tableId" then PValue (tableId e)
  else PValue VUndefined.

Definition prop_truthy (p : property) : bool :=
  match p with
  | PValue v => truthy v
  | PSet _ => true
  end.

(** The room name [io.to] gets from a property. *)
Definition prop_room (p : property) : string :=
  match p with
  | PValue v => to_key v
  | PSet _ => "[object Set]"
  end.

End Entry.

(** A document of the [Message] collection, as far as the relay reads it. *)
Record message : Type := mkMessage {
  msg_id : string;
  msg_chatId : string;
  msg_senderId : string;
  msg_content : string;
  msg_isReadBy : list string
}.

Record state : Type := mkState {
  users : Obj.t Entry.t;
  messages : list message
}.

(** A fresh process: nobody is registered, the collection holds what the
    store holds. *)
Definition boot (stored : list message) : state := mkState [] stored.

Definition set_users (u : Obj.t Entry.t) (st : state) : state :=
  mkState u (messages st).

(** ** Inbound payloads *)

Record register_payload : Type := mkRegister {
  reg_userId : jsval;
  reg_firstName : jsval;
  reg_lastName : jsval;
  reg_x : jsval;
  reg_y : jsval
}.

Record moved_payload : Type := mkMoved {
  mv_userId : jsval;
  mv_x : jsval;
  mv_y : jsval
}.

Record join_payload : Type := mkJoin {
  jt_userId : jsval;
  jt_tableId : jsval
}.

Record read_payload : Type := mkRead {
  rd_chatId : jsval;
  rd_userId : jsval
}.

(** [{ from, to, ... }]: the rest of a signalling payload is carried as
    text, the server never looks at it. *)
Record signal_payload : Type := mkSignal {
  sig_from : jsval;
  sig_to : jsval;
  sig_rest : string
}.

Inductive signal_event : Type :=
| VideoOffer
| VideoAnswer
| VideoIceCandidate
| VideoEnd.

Definition signal_name (e : signal_event) : string :=
  match e with
  | VideoOffer => "video-offer"
  | VideoAnswer => "video-answer"
  | VideoIceCandidate => "video-ice-candidate"
  | VideoEnd => "video-end"
  end.

(** ** Outbound events *)

Record roster_item : Type := mkRoster {
  ro_id : string;
  ro_firstName : jsval;
  ro_lastName : jsval;
  ro_x : jsval;
  ro_y : jsval;
  ro_tableId : jsval
}.

(** A [Chat] document as the services build it. *)
Record chat : Type := mkChat {
  chat_groupName : option string;
  chat_isGroupChat : bool;
  chat_participants : list string;
  chat_participantsKey : option string
}.

(** The body of a [messageCreated] push of [sendMessageService]. *)
Record message_created : Type := mkMessageCreated {
  mc_message : message;
  mc_fromName : jsval;
  mc_fromAvatar : jsval;
  mc_isSentByCurrentUser : bool
}.

Inductive payload : Type :=
| ExistingUsers (roster : list roster_item)
| UserJoined (userId firstName lastName x y : jsval)
| UserMoved (userId x y : jsval)
| TableJoined (userId tableId : jsval)
| TableCreated (newTable : string)
| MessagesRead (chatId userId : jsval)
| Signal (e : signal_event) (d : signal_payload)
| UserLeft (userId : string)
| UserFollowed (body : string)
| ChatCreated (c : chat)
| MessageCreated (body : message_created).

Definition event_name (p : payload) : string :=
  match p with
  | ExistingUsers _ => "existingUsers"
  | UserJoined _ _ _ _ _ => "userJoined"
  | UserMoved _ _ _ => "userMoved"
  | TableJoined _ _ => "tableJoined"
  | TableCreated _ => "tableCreated"
  | MessagesRead _ _ => "messagesRead"
  | Signal e _ => signal_name e
  | UserLeft _ => "userLeft"
  | UserFollowed _ => "userFollowed"
  | ChatCreated _ => "chatCreated"
  | MessageCreated _ => "messageCreated"
  end.

(** Who an emit addresses: [socket.emit], [socket.broadcast.emit] and
    [io.to(room).emit]. *)
Inductive target : Type :=
| Self (sid : string)
| Others (sid : string)
| Room (room : string).

(** A write that reached the [HangoutUser] collection. *)
Inductive hangout_write : Type :=
| Baseline (userId x y : jsval)
| Position (userId x y : jsval)
| Table (userId tableId : jsval).

Inductive effect : Type :=
| Push (t : target) (p : payload)
| Persist (w : hangout_write)
| ConsoleError (line : string)
| ConsoleLog (line : string).

Definition is_push (e : effect) : bool :=
  match e with Push _ _ => true | _ => false end.

Definition pushes (es : list effect) : list effect := filter is_push es.

Definition is_error (e : effect) : bool :=
  match e with ConsoleError _ => true | _ => false end.

(** Every socket joins the room named by its own id; a push reaches the
    connected sockets it addresses. *)
Definition delivered (connected : list string) (e : effect) : list string :=
  match e with
  | Push (Self sid) _ => filter (String.eqb sid) connected
  | Push (Others sid) _ =>
      filter (fun c => negb (String.eqb sid c)) connected
  | Push (Room r) _ => filter (String.eqb r) connected
  | _ => []
  end.

(** The connections an effect trace reaches with the event named [ev]. *)
Definition receivers (connected : list string) (ev : string)
    (es : list effect) : list string :=
  flat_map
    (fun e =>
       match e with
       | Push _ p =>
           if String.eqb (event_name p) ev then delivered connected e else []
       | _ => []
       end)
    es.

(** ** Registry queries *)

Definition connectionsFor (uid : string) (st : state) : StrSet.t :=
  match Obj.get uid (users st) with
  | Some e => Entry.socketIds e
  | None => StrSet.empty
  end.

(** [entry?.socketIds?.size > 0], the test of [messageController.js]. *)
Definition isUserOnline (uid : string) (st : state) : bool :=
  match Obj.get uid (users st) with
  | Some e => Nat.ltb 0 (StrSet.size (Entry.socketIds e))
  | None => false
  end.

(** ** The handlers of [initSocket] *)

Definition roster_of (kv : string * Entry.t) : roster_item :=
  let (uid, data) := kv in
  mkRoster uid (Entry.firstName data) (Entry.lastName data)
    (Entry.x data) (Entry.y data) (Entry.tableId data).

(** The entry [registerUser] builds when [users[userId]] is absent. *)
Definition fresh_entry (p : register_payload) : Entry.t :=
  Entry.mk StrSet.empty
    (js_or (reg_firstName p) (VStr "Anon"))
    (js_or (reg_lastName p) (VStr ""))
    (if is_number (reg_x p) then reg_x p else VNum 100)
    (if is_number (reg_y p) then reg_y p else VNum 100)
    VNull.

Definition registerUser (sid : string) (p : register_payload) (db_ok : bool)
    (st : state) : state * list effect :=
  let userId := to_key (reg_userId p) in
  let entry0 :=
    match Obj.get userId (users st) with
    | Some e => e
    | None => fresh_entry p
    end in
  let entry :=
    Entry.with_socketIds (StrSet.add sid (Entry.socketIds entry0)) entry0 in
  let users' := Obj.set userId entry (users st) in
  (set_users users' st,
   (if db_ok
    then [Persist (Baseline (reg_userId p) (Entry.x entry) (Entry.y entry))]
    else [ConsoleError "DB error in registerUser:"])
   ++ [Push (Self sid) (ExistingUsers (map roster_of users'));
       Push (Others sid)
         (UserJoined (reg_userId p) (reg_firstName p) (reg_lastName p)
            (Entry.x entry) (Entry.y entry))]).

Definition userMoved (sid : string) (p : moved_payload) (db_ok : bool)
    (st : state) : state * list effect :=
  let userId := to_key (mv_userId p) in
  let users' :=
    match Obj.get userId (users st) with
    | Some e => Obj.set userId (Entry.with_xy (mv_x p) (mv_y p) e) (users st)
    | None => users st
    end in
  (set_users users' st,
   Push (Others sid) (UserMoved (mv_userId p) (mv_x p) (mv_y p))
   :: (if db_ok
       then [Persist (Position (mv_userId p) (mv_x p) (mv_y p))]
       else [ConsoleError "userMoved DB error:"])).

Definition joinTable (sid : string) (p : join_payload) (db_ok : bool)
    (st : state) : state * list effect :=
  let userId := to_key (jt_userId p) in
  let users' :=
    match Obj.get userId (users st) with
    | Some e => Obj.set userId (Entry.with_tableId (jt_tableId p) e) (users st)
    | None => users st
    end in
  (set_users users' st,
   Push (Others sid) (TableJoined (jt_userId p) (jt_tableId p))
   :: (if db_ok
       then [Persist (Table (jt_userId p) (jt_tableId p))]
       else [ConsoleError "joinTable DB error:"])).

Definition tableCreated (sid : string) (newTable : string)
    (st : state) : state * list effect :=
  (st, [Push (Others sid) (TableCreated newTable)]).

(** [Message.updateMany({chatId, isReadBy: {$ne: userId},
    senderId: {$ne: userId}}, {$push: {isReadBy: userId}})] *)
Definition unread_by (chatId userId : string) (m : message) : bool :=
  String.eqb (msg_chatId m) chatId
  && negb (existsb (String.eqb userId) (msg_isReadBy m))
  && negb (String.eqb (msg_senderId m) userId).

Definition updateMany_read (chatId userId : string)
    (ms : list message) : list message :=
  map (fun m =>
         if unread_by chatId userId m
         then mkMessage (msg_id m) (msg_chatId m) (msg_senderId m)
                (msg_content m) (msg_isReadBy m ++ [userId])
         else m)
      ms.

Definition markMessagesAsRead (sid : string) (p : read_payload) (db_ok : bool)
    (st : state) : state * list effect :=
  if db_ok then
    (mkState (users st)
       (updateMany_read (to_key (rd_chatId p)) (to_key (rd_userId p))
          (messages st)),
     match Obj.get (to_key (rd_userId p)) (users st) with
     | Some e =>
         map (fun s => Push (Room s) (MessagesRead (rd_chatId p) (rd_userId p)))
           (Entry.socketIds e)
     | None => []
     end)
  else (st, [ConsoleError "markMessagesAsRead error:"]).

(** [relay(event, data)], shared by the four signalling handlers. *)
Definition relay (event : signal_event) (data : signal_payload)
    (st : state) : state * list effect :=
  match Obj.get (to_key (sig_to data)) (users st) with
  | None => (st, [ConsoleLog "offline - dropping"])
  | Some entry =>
      (st, map (fun s => Push (Room s) (Signal event data))
             (Entry.socketIds entry))
  end.

(** The loop of the disconnect handler over [Object.entries(users)]: the
    first entry holding the socket is the only one touched. *)
Fixpoint disconnect_scan (sid : string) (entries : list (string * Entry.t))
    (us : Obj.t Entry.t) : Obj.t Entry.t * list effect :=
  match entries with
  | [] => (us, [])
  | (uid, data) :: rest =>
      if StrSet.has sid (Entry.socketIds data) then
        let ids := StrSet.delete sid (Entry.socketIds data) in
        if Nat.eqb (StrSet.size ids) 0
        then (Obj.delete uid us, [Push (Others sid) (UserLeft uid)])
        else (Obj.set uid (Entry.with_socketIds ids data) us, [])
      else disconnect_scan sid rest us
  end.

Definition disconnect (sid : string) (st : state) : state * list effect :=
  let (us, out) := disconnect_scan sid (users st) (users st) in
  (set_users us st, out).

(** [notifyUserFollowed(followedUserId, payload)]; [io] is [null] until
    [initSocket] has run. *)
Definition notifyUserFollowed (io : bool) (followedUserId : jsval)
    (body : string) (st : state) : list effect :=
  if negb io then []
  else
    match Obj.get (to_key followedUserId) (users st) with
    | None => [ConsoleLog "notifyUserFollowed -> user offline"]
    | Some entry =>
        if Nat.eqb (StrSet.size (Entry.socketIds entry)) 0
        then [ConsoleLog "notifyUserFollowed -> user offline"]
        else map (fun s => Push (Room s) (UserFollowed body))
               (Entry.socketIds entry)
    end.

(** ** Runs of the server *)

Inductive event : Type :=
| OnRegisterUser (sid : string) (p : register_payload) (db_ok : bool)
| OnUserMoved (sid : string) (p : moved_payload) (db_ok : bool)
| OnJoinTable (sid : string) (p : join_payload) (db_ok : bool)
| OnTableCreated (sid : string) (newTable : string)
| OnMarkMessagesAsRead (sid : string) (p : read_payload) (db_ok : bool)
| OnSignal (sid : string) (e : signal_event) (d : signal_payload)
| OnDisconnect (sid : string).

Definition step (ev : event) (st : state) : state * list effect :=
  match ev with
  | OnRegisterUser sid p ok => registerUser sid p ok st
  | OnUserMoved sid p ok => userMoved sid p ok st
  | OnJoinTable sid p ok => joinTable sid p ok st
  | OnTableCreated sid t => tableCreated sid t st
  | OnMarkMessagesAsRead sid p ok => markMessagesAsRead sid p ok st
  | OnSignal _ e d => relay e d st
  | OnDisconnect sid => disconnect sid st
  end.

Fixpoint run (evs : list event) (st : state) : state * list effect :=
  match evs with
  | [] => (st, [])
  | ev :: rest =>
      let (st1, out1) := step ev st in
      let (st2, out2) := run rest st1 in
      (st2, out1 ++ out2)
  end.

Definition state_after (evs : list event) (st : state) : state :=
  fst (run evs st).

(** ** The chat services ([services/chatService.js],
       [services/messageService.js]) *)

Inductive result (A : Type) : Type :=
| Returned (a : A)
| Thrown (msg : string).

Arguments Returned {A} a.
Arguments Thrown {A} msg.

(** [[...new Set(l)]] *)
Definition dedupe (l : list string) : list string :=
  fold_left (fun s k => StrSet.add k s) l StrSet.empty.

Fixpoint insert_sorted (k : string) (l : list string) : list string :=
  match l with
  | [] => [k]
  | h :: t => if String.leb k h then k :: l else h :: insert_sorted k t
  end.

(** [l.sort()] on strings. *)
Definition sort_strings (l : list string) : list string :=
  fold_right insert_sorted [] l.

Definition is_blank (c : ascii) : bool :=
  let n := nat_of_ascii c in
  (Nat.eqb n 32 || (Nat.leb 9 n && Nat.leb n 13))%bool.

Fixpoint trim_start (s : string) : string :=
  match s with
  | EmptyString => EmptyString
  | String c s' => if is_blank c then trim_start s' else s
  end.

Fixpoint trim_end (s : string) : string :=
  match s with
  | EmptyString => EmptyString
  | String c s' =>
      match trim_end s' with
      | EmptyString => if is_blank c then EmptyString else String c EmptyString
      | r => String c r
      end
  end.

(** [s.trim()], for the blanks of ASCII. *)
Definition trim (s : string) : string := trim_end (trim_start s).

(** The loop the three services share:
    [ids.forEach(id => { const u = users[id];
       if (u?.socketId) io.to(u.socketId).emit(...) })].
    The flag tells whether the loop ran to its end; [io.to] on a [null]
    server throws. *)
Fixpoint push_by_socketId (io : bool) (us : Obj.t Entry.t)
    (body : string -> payload) (ids : list string) : bool * list effect :=
  match ids with
  | [] => (true, [])
  | id :: rest =>
      match Obj.get id us with
      | Some u =>
          let socketId := Entry.prop "socketId" u in
          if Entry.prop_truthy socketId then
            if io then
              let (done, out) := push_by_socketId io us body rest in
              (done, Push (Room (Entry.prop_room socketId)) (body id) :: out)
            else (false, [])
          else push_by_socketId io us body rest
      | None => push_by_socketId io us body rest
      end
  end.

Definition broadcast_chat (io : bool) (us : Obj.t Entry.t) (c : chat)
    : result chat * list effect :=
  let (done, out) :=
    push_by_socketId io us (fun _ => ChatCreated c) (chat_participants c) in
  (if done then Returned c else Thrown "TypeError", out).

(** [createChatService({ fromId, toIds, groupName })].  [toIds] is [None]
    when it is not an array; [found] is the number of documents
    [User.find] returned and [existing] what [Chat.findOne] returned. *)
Definition createChatService (io : bool) (us : Obj.t Entry.t)
    (fromId : string) (toIds : option (list string))
    (groupName : option string) (found : nat) (existing : option chat)
    : result chat * list effect :=
  match toIds with
  | None => (Thrown "fromId and toIds are required.", [])
  | Some ids =>
      if (String.eqb fromId "" || Nat.ltb (length ids) 1)%bool
      then (Thrown "fromId and toIds are required.", [])
      else if existsb (String.eqb fromId) ids
      then (Thrown "Cannot chat with yourself.", [])
      else
        let uniqueParticipants := dedupe (fromId :: ids) in
        if negb (Nat.eqb found (length uniqueParticipants))
        then (Thrown "One or more users not found.", [])
        else if Nat.eqb (length uniqueParticipants) 2 then
          let sortedIds := sort_strings uniqueParticipants in
          match existing with
          | Some c => (Returned c, [])
          | None =>
              broadcast_chat io us
                (mkChat None false sortedIds (Some (String.concat "_" sortedIds)))
          end
        else
          match groupName with
          | None => (Thrown "Group name is required for group chats.", [])
          | Some g =>
              if String.eqb (trim g) ""
              then (Thrown "Group name is required for group chats.", [])
              else
                broadcast_chat io us
                  (mkChat (Some (trim g)) true uniqueParticipants None)
          end
  end.

(** [createGroupChatService(userId, toIds, groupName)] *)
Definition createGroupChatService (io : bool) (us : Obj.t Entry.t)
    (userId : string) (toIds : option (list string))
    (groupName : option string) : result chat * list effect :=
  match toIds with
  | None => (Thrown "At least two participants are required.", [])
  | Some ids =>
      if Nat.ltb (length ids) 2
      then (Thrown "At least two participants are required.", [])
      else
        let participants := dedupe (ids ++ [userId]) in
        let name :=
          match groupName with
          | Some g => if String.eqb g "" then "Unnamed Group" else g
          | None => "Unnamed Group"
          end in
        broadcast_chat io us (mkChat (Some name) true participants None)
  end.

(** The fields of the sender [sendMessageService] selects. *)
Record sender_doc : Type := mkSender {
  sender_firstName : jsval;
  sender_avatar : jsval
}.

(** [v ?? null] *)
Definition or_null (v : jsval) : jsval :=
  match v with
  | VUndefined | VNull => VNull
  | _ => v
  end.

(** [sendMessageService({ chatId, senderId, content })].  [found_chat] and
    [found_sender] are what the two [findById] calls returned, [new_id] the
    id the store gives the new message. *)
Definition sendMessageService (io : bool) (st : state)
    (chatId senderId content : string) (found_chat : option chat)
    (found_sender : option sender_doc) (new_id : string)
    : result message * state * list effect :=
  match found_chat with
  | None => (Thrown "Chat not found.", st, [])
  | Some c =>
      if negb (existsb (fun p => String.eqb p senderId) (chat_participants c))
      then (Thrown "You are not a participant of this chat.", st, [])
      else
        match found_sender with
        | None => (Thrown "Sender not found.", st, [])
        | Some sender =>
            let newMessage :=
              mkMessage new_id chatId senderId (trim content) [senderId] in
            let st' := mkState (users st) (messages st ++ [newMessage]) in
            let body participantId :=
              MessageCreated
                (mkMessageCreated newMessage
                   (if String.eqb participantId senderId
                    then VStr "You" else sender_firstName sender)
                   (or_null (sender_avatar sender))
                   (String.eqb participantId senderId)) in
            let (done, out) :=
              push_by_socketId io (users st) body (chat_participants c) in
            (if done then Returned newMessage else Thrown "TypeError",
             st', out)
        end
  end.

(** ** Unread counts and the REST side of read receipts
       ([services/chatService.js], [services/messageService.js],
       [controllers/messageController.js]) *)

(** [Message.countDocuments({ chatId, isReadBy: { $ne: userId },
    senderId: { $ne: userId } })], the [unreadCount] that
    [getUserChatsService] attaches to a chat. *)
Definition unreadCount (chatId userId : string) (ms : list message) : nat :=
  length (filter (unread_by chatId userId) ms).

(** [getUnreadCountService(userId)]: [valid] is what
    [ObjectId.isValid(userId)] answered and [chatIds] the ids of the chats
    [Chat.find({ participants: userId })] returned. *)
Definition getUnreadCountService (userId : string) (valid : bool)
    (chatIds : list string) (ms : list message) : result nat :=
  if negb valid then Thrown "Invalid user ID."
  else
    Returned
      (length
         (filter
            (fun m =>
               existsb (String.eqb (msg_chatId m)) chatIds
               && negb (existsb (String.eqb userId) (msg_isReadBy m))
               && negb (String.eqb (msg_senderId m) userId))
            ms)).

(** The filter [{ chatId, isReadBy: { $ne: userId } }] of the REST
    paths, which does not look at the sender. *)
Definition not_read_by (chatId userId : string) (m : message) : bool :=
  String.eqb (msg_chatId m) chatId
  && negb (existsb (String.eqb userId) (msg_isReadBy m)).

Definition updateMany_read_all (chatId userId : string)
    (ms : list message) : list message :=
  map (fun m =>
         if not_read_by chatId userId m
         then mkMessage (msg_id m) (msg_chatId m) (msg_senderId m)
                (msg_content m) (msg_isReadBy m ++ [userId])
         else m)
      ms.

(** [markMessagesAsReadService(chatId, userId)]: [valid] is what
    [ObjectId.isValid(chatId)] answered, [found] what [Chat.findById]
    returned.  The result is [{ matched, modified }]. *)
Definition markMessagesAsReadService (chatId userId : string) (valid : bool)
    (found : option chat) (ms : list message)
    : result (nat * nat) * list message :=
  if negb valid then (Thrown "Invalid chatId.", ms)
  else
    match found with
    | None => (Thrown "Chat not found.", ms)
    | Some c =>
        if negb (existsb (fun pid => String.eqb pid userId)
                   (chat_participants c))
        then (Thrown "You are not a participant of this chat.", ms)
        else
          let n := length (filter (not_read_by chatId userId) ms) in
          (Returned (n, n), updateMany_read_all chatId userId ms)
    end.

(** ** Private chat keys ([generateParticipantsKey] and
       [findOrCreatePrivateChat], in the file of the chat services) *)

(** [[id1.toString(), id2.toString()].sort().join("_")] *)
Definition generateParticipantsKey (id1 id2 : string) : string :=
  String.concat "_" (sort_strings [id1; id2]).

(** [findOrCreatePrivateChat(userAId, userBId)]: [found] is what
    [Chat.findOne({ participantsKey, isGroupChat: false })] returned; the
    flag tells whether a chat was created. *)
Definition findOrCreatePrivateChat (userAId userBId : string)
    (found : option chat) : chat * bool :=
  match found with
  | Some c => (c, false)
  | None =>
      (mkChat None false [userAId; userBId]
         (Some (generateParticipantsKey userAId userBId)), true)
  end.

(** ** The message controller ([controllers/messageController.js]) *)

(** A [Chat] document as the controller uses it: the ids of the
    participants and [notifiedUsers]. *)
Record stored_chat : Type := mkStoredChat {
  sc_participants : list string;
  sc_notifiedUsers : list string
}.

(** [res.status(s).json({ message })] *)
Record response : Type := mkResponse {
  res_status : nat;
  res_message : string
}.

(** [io.to(room).emit("messageCreated", { chatId, message })] *)
Inductive rest_push : Type :=
| RestMessageCreated (room : string) (chatId : string) (m : message).

Definition rest_room (p : rest_push) : string :=
  match p with RestMessageCreated room _ _ => room end.

(** The broadcast loop of [sendMessage]:
    [entry?.socketIds?.forEach(sid => io.to(sid).emit(...))] for each
    participant.  The flag tells whether the loop ran to its end; [io.to]
    on a [null] server throws. *)
Fixpoint controller_broadcast (io : bool) (us : Obj.t Entry.t)
    (chatId : string) (m : message) (pids : list string)
    : bool * list rest_push :=
  match pids with
  | [] => (true, [])
  | pid :: rest =>
      let sids :=
        match Obj.get pid us with
        | Some entry => Entry.socketIds entry
        | None => []
        end in
      match sids with
      | [] => controller_broadcast io us chatId m rest
      | _ =>
          if io then
            let (done, out) := controller_broadcast io us chatId m rest in
            (done, map (fun sid => RestMessageCreated sid chatId m) sids ++ out)
          else (false, [])
      end
  end.





(** [markMessagesAsRead(req, res)] of the controller: the update of the
    messages, then [$pull: { notifiedUsers: userId }] on the chat when
    there is one. *)
Definition markMessagesAsRead_rest (chatId userId : string) (valid : bool)
    (found : option stored_chat) (ms : list message)
    : response * list message * option stored_chat :=
  if negb valid then (mkResponse 400 "Invalid chat ID.", ms, found)
  else
    (mkResponse 200 "Messages marked as read.",
     updateMany_read_all chatId userId ms,
     match found with
     | Some c =>
         Some (mkStoredChat (sc_participants c)
                 (filter (fun u => negb (String.eqb u userId))
                    (sc_notifiedUsers c)))
     | None => None
     end).

(** ** Follow, unfollow and block (the user services kept in the file of
       the chat services) *)

(** A [User] document as these services use it.  The three arrays hold
    user ids, written as the store prints them; the [includes] of a
    Mongoose array and the [toString] comparisons of the source both
    compare ids by that text. *)
Record user_doc : Type := mkUserDoc {
  ud_firstName : string;
  ud_lastName : string;
  ud_following : list string;
  ud_followers : list string;
  ud_blockFollowing : list string
}.

(** [if (!l.includes(id)) l.push(id)] *)
Definition push_unless_included (id : string) (l : list string)
    : list string :=
  if existsb (String.eqb id) l then l else l ++ [id].

(** [l.filter((x) => x.toString() !== id)] *)
Definition without (id : string) (l : list string) : list string :=
  filter (fun x => negb (String.eqb x id)) l.

(** The object [followUserService] hands to [notifyUserFollowed],
    rendered as text: [followerId], [followedId], [followerName] and
    [message]. *)
Definition follow_body (loggedInUserId userIdToFollow followerName : string)
    : string :=
  "followerId=" ++ loggedInUserId ++ ";followedId=" ++ userIdToFollow
  ++ ";followerName=" ++ followerName
  ++ ";message=" ++ followerName ++ " just followed you!".

(** [followUserService(loggedInUserId, userIdToFollow)].  The two
    documents are what the two [User.findById] returned and [found_chat]
    what [Chat.findOne] returned in [findOrCreatePrivateChat];
    [chat_id] is the id of that chat, found or created, [new_id] the id
    of the stored message, [admin] the constant [SYSTEM_ADMIN_ID].  The
    result is [None] for [{ notFound: true }], else the two documents as
    saved; with it come the state, the effects and the chat used. *)
Definition followUserService (io : bool) (st : state) (admin : string)
    (loggedInUserId userIdToFollow : string)
    (followerUser followedUser : option user_doc)
    (found_chat : option chat) (chat_id new_id : string)
    : option (user_doc * user_doc) * state * list effect * option chat :=
  match followerUser, followedUser with
  | Some follower, Some followed =>
      let follower' :=
        mkUserDoc (ud_firstName follower) (ud_lastName follower)
          (push_unless_included userIdToFollow (ud_following follower))
          (ud_followers follower) (ud_blockFollowing follower) in
      let followed' :=
        mkUserDoc (ud_firstName followed) (ud_lastName followed)
          (ud_following followed)
          (push_unless_included loggedInUserId (ud_followers followed))
          (ud_blockFollowing followed) in
      let notified :=
        notifyUserFollowed io (VStr userIdToFollow)
          (follow_body loggedInUserId userIdToFollow (ud_firstName follower))
          st in
      let c := fst (findOrCreatePrivateChat admin userIdToFollow found_chat) in
      let newMessage :=
        mkMessage new_id chat_id admin
          ("Hi " ++ ud_firstName followed ++ ", you were just followed by "
           ++ ud_firstName follower ++ " " ++ ud_lastName follower ++ "!")
          [admin] in
      let st' := mkState (users st) (messages st ++ [newMessage]) in
      let created :=
        if io then
          match Obj.get userIdToFollow (users st) with
          | Some userData =>
              if Entry.prop_truthy (Entry.prop "socketId" userData)
              then [Push (Room (Entry.prop_room
                                  (Entry.prop "socketId" userData)))
                      (MessageCreated
                         (mkMessageCreated newMessage VUndefined VUndefined
                            false))]
              else []
          | None => []
          end
        else [] in
      (Some (follower', followed'), st', notified ++ created, Some c)
  | _, _ => (None, st, [], None)
  end.

(** [unfollowUserService(loggedInUserId, userIdToUnfollow)] *)
Definition unfollowUserService (loggedInUserId userIdToUnfollow : string)
    (followerUser followedUser : option user_doc)
    : option (user_doc * user_doc) :=
  match followerUser, followedUser with
  | Some follower, Some followed =>
      Some (mkUserDoc (ud_firstName follower) (ud_lastName follower)
              (without userIdToUnfollow (ud_following follower))
              (ud_followers follower) (ud_blockFollowing follower),
            mkUserDoc (ud_firstName followed) (ud_lastName followed)
              (ud_following followed)
              (without loggedInUserId (ud_followers followed))
              (ud_blockFollowing followed))
  | _, _ => None
  end.

(** [blockUserService(loggedInUserId, userIdToBlock)] *)
Definition blockUserService (loggedInUserId userIdToBlock : string)
    (blockingUser blockedUser : option user_doc)
    : option (user_doc * user_doc) :=
  match blockingUser, blockedUser with
  | Some blocking, Some blocked =>
      Some (mkUserDoc (ud_firstName blocking) (ud_lastName blocking)
              (without userIdToBlock (ud_following blocking))
              (without userIdToBlock (ud_followers blocking))
              (push_unless_included userIdToBlock
                 (ud_blockFollowing blocking)),
            mkUserDoc (ud_firstName blocked) (ud_lastName blocked)
              (without loggedInUserId (ud_following blocked))
              (without loggedInUserId (ud_followers blocked))
              (ud_blockFollowing blocked))
  | _, _ => None
  end.

(** ** The error monitor ([monitorPM2Logs], kept in the file of the
       socket configuration) *)

(** One hour in milliseconds. *)
Definition ALERT_COOLDOWN : Z := 60 * 60 * 1000.

(** [s.includes(sub)] *)
Definition includes (sub s : string) : bool :=
  match String.index 0 sub s with
  | Some _ => true
  | None => false
  end.

(** A [log:err] event of the bus: its data, what [Date.now()] answers
    while it is handled, and whether [sgMail.send] succeeds. *)
Record pm2_log : Type := mkPm2Log {
  log_data : string;
  log_now : Z;
  log_send_ok : bool
}.

Inductive monitor_effect : Type :=
| Detected (data : string)
| Suppressed
| MailRequested (now : Z) (text : string)
| MailSent
| MailFailed.

(** The handler of [log:err]; the state is [lastAlertTime]. *)
Definition on_log_err (lastAlertTime : Z) (log : pm2_log)
    : Z * list monitor_effect :=
  if includes "500" (log_data log) then
    if (log_now log - lastAlertTime <? ALERT_COOLDOWN)%Z
    then (lastAlertTime, [Detected (log_data log); Suppressed])
    else
      (log_now log,
       [Detected (log_data log);
        MailRequested (log_now log)
          ("A 500 error occurred: " ++ log_data log);
        if log_send_ok log then MailSent else MailFailed])
  else (lastAlertTime, []).

Fixpoint handle_logs (lastAlertTime : Z) (logs : list pm2_log)
    : Z * list monitor_effect :=
  match logs with
  | [] => (lastAlertTime, [])
  | log :: rest =>
      let (t1, out1) := on_log_err lastAlertTime log in
      let (t2, out2) := handle_logs t1 rest in
      (t2, out1 ++ out2)
  end.

(** [monitorPM2Logs()] followed by the events of the bus:
    [ERROR_LOGGING] is the flag of the environment, [bus_error] tells
    whether [pm2.launchBus] failed.  [lastAlertTime] starts at 0. *)
Definition monitorPM2Logs (ERROR_LOGGING bus_error : bool)
    (logs : list pm2_log) : list monitor_effect :=
  if negb ERROR_LOGGING then []
  else if bus_error then []
  else snd (handle_logs 0 logs).

(** ** Deleting chats and messages ([deleteChatService],
       [deleteMessageService], the controller's [deleteMessage]) *)

(** [Message.deleteMany({ chatId })] *)
Definition deleteMany_chat (chatId : string) (ms : list message)
    : list message :=
  filter (fun m => negb (String.eqb (msg_chatId m) chatId)) ms.

(** [deleteChatService(chatId, userId)]: [valid] is what
    [ObjectId.isValid(chatId)] answered, [found] what [Chat.findById]
    returned.  [Returned true] stands for the chat deleted with its
    messages. *)
Definition deleteChatService (chatId userId : string) (valid : bool)
    (found : option chat) (ms : list message)
    : result bool * list message :=
  if negb valid then (Thrown "Invalid chatId.", ms)
  else
    match found with
    | None => (Thrown "Chat not found.", ms)
    | Some c =>
        if negb (existsb (fun p => String.eqb p userId) (chat_participants c))
        then (Thrown "You are not a participant of this chat.", ms)
        else (Returned true, deleteMany_chat chatId ms)
    end.

(** Deleting one document: the first that matches. *)
Fixpoint remove_first (f : message -> bool) (ms : list message)
    : list message :=
  match ms with
  | [] => []
  | m :: rest => if f m then rest else m :: remove_first f rest
  end.

Definition has_id (messageId : string) (m : message) : bool :=
  String.eqb (msg_id m) messageId.

(** [deleteMessageService({ chatId, messageId, userId })]: [valid] is
    whether the three ids passed [ObjectId.isValid]. *)
Definition deleteMessageService (chatId messageId userId : string)
    (valid : bool) (ms : list message) : result bool * list message :=
  if negb valid then (Thrown "Invalid chatId, messageId, or userId.", ms)
  else
    match find (has_id messageId) ms with
    | None => (Thrown "Message not found.", ms)
    | Some m =>
        if negb (String.eqb (msg_chatId m) chatId)
        then (Thrown "Message does not belong to this chat.", ms)
        else if negb (String.eqb (msg_senderId m) userId)
        then (Thrown "You can only delete your own messages.", ms)
        else (Returned true, remove_first (has_id messageId) ms)
    end.

(** [deleteMessage(req, res)] of the controller: [valid] is whether both
    ids passed [ObjectId.isValid], [found] what [Chat.findById]
    returned; the message goes by
    [Message.findOneAndDelete({ _id: messageId, chatId })]. *)
Definition deleteMessage (chatId messageId userId : string) (valid : bool)
    (found : option stored_chat) (ms : list message)
    : response * list message :=
  if negb valid then (mkResponse 400 "Invalid ID(s).", ms)
  else
    match found with
    | None => (mkResponse 404 "Chat not found.", ms)
    | Some c =>
        if negb (existsb (fun p => String.eqb p userId) (sc_participants c))
        then (mkResponse 403 "You are not in this chat.", ms)
        else
          let matches m :=
            (has_id messageId m && String.eqb (msg_chatId m) chatId)%bool in
          match find matches ms with
          | None =>
              (mkResponse 404 "Message not found or already deleted.", ms)
          | Some _ => (mkResponse 200 "Message deleted.", remove_first matches ms)
          end
    end.

(** * Vocabulary of the properties *)

(** What the representation cannot express by itself: keys are unique, a
    [Set] holds no element twice, and no entry is left without a socket. *)
Definition entry_ok (kv : string * Entry.t) : Prop :=
  Entry.socketIds (snd kv) <> [] /\ NoDup (Entry.socketIds (snd kv)).

(** A registry in which every entry is as above and no key occurs twice. *)
Definition wf_users (us : Obj.t Entry.t) : Prop :=
  NoDup (Obj.keys us) /\ Forall entry_ok us.

(** The three ways the scan of [disconnect] can end. *)
Inductive scan_outcome (sid : string) (entries : list (string * Entry.t))
    (us : Obj.t Entry.t) : Obj.t Entry.t * list effect -> Prop :=
| scan_miss :
    (forall kv, In kv entries ->
                StrSet.has sid (Entry.socketIds (snd kv)) = false) ->
    scan_outcome sid entries us (us, [])
| scan_last uid data :
    In (uid, data) entries ->
    In sid (Entry.socketIds data) ->
    StrSet.delete sid (Entry.socketIds data) = [] ->
    scan_outcome sid entries us
      (Obj.delete uid us, [Push (Others sid) (UserLeft uid)])
| scan_more uid data :
    In (uid, data) entries ->
    In sid (Entry.socketIds data) ->
    StrSet.delete sid (Entry.socketIds data) <> [] ->
    scan_outcome sid entries us
      (Obj.set uid
         (Entry.with_socketIds (StrSet.delete sid (Entry.socketIds data)) data)
         us, []).


(** Sample entries and states. *)
Definition entry_of (ids : list string) : Entry.t :=
  Entry.mk ids (VStr "Ada") (VStr "L") (VNum 100) (VNum 100) VNull.

Definition solo_state : state :=
  mkState [("U", entry_of ["c1"])] [].




Definition pair_state : state :=
  mkState [("V", entry_of ["c9"]); ("U", entry_of ["c1"; "c2"])] [].

(** [registerUser{userId: uid}], the optional fields absent. *)
Definition reg (uid : string) : register_payload :=
  mkRegister (VStr uid) VUndefined VUndefined VUndefined VUndefined.


(** No socket id is in the sets of two different user ids. *)
Definition single_owner (us : Obj.t Entry.t) : Prop :=
  forall k1 e1 k2 e2 c,
    In (k1, e1) us -> In (k2, e2) us ->
    In c (Entry.socketIds e1) -> In c (Entry.socketIds e2) -> k1 = k2.

(** Every socket registers under one user id only. *)
Definition registers_once (evs : list event) : Prop :=
  forall sid p1 ok1 p2 ok2,
    In (OnRegisterUser sid p1 ok1) evs ->
    In (OnRegisterUser sid p2 ok2) evs ->
    to_key (reg_userId p1) = to_key (reg_userId p2).

(** Each socket of an entry got there by a [registerUser] of the events
    handled so far, sent by that socket under the entry's key. *)
Definition registered_by (handled : list event) (us : Obj.t Entry.t) : Prop :=
  forall k e c,
    In (k, e) us -> In c (Entry.socketIds e) ->
    exists p ok,
      In (OnRegisterUser c p ok) handled /\ to_key (reg_userId p) = k.

Definition sample_events : list event :=
  [OnRegisterUser "c1" (reg "U") true;
   OnRegisterUser "c2" (reg "U") true;
   OnUserMoved "c1" (mkMoved (VStr "U") (VNum 3) (VNum 4)) true;
   OnRegisterUser "c3" (reg "V") false;
   OnDisconnect "c1"].


Definition offer_to (uid : string) : signal_payload :=
  mkSignal (VStr "A") (VStr uid) "sdp".

(** The [existingUsers] pushes of an effect trace, with their addressee. *)
Definition roster_sent (out : list effect) : list (target * list roster_item) :=
  flat_map
    (fun e =>
       match e with
       | Push t (ExistingUsers r) => [(t, r)]
       | _ => []
       end)
    out.





(** The receipt reaches the live connections of [A] and none of [B]. *)
Definition receipt_reaches (st : state) (connected : list string)
    (sid : string) (p : read_payload) (A B : string) : Prop :=
  let out := snd (markMessagesAsRead sid p true st) in
  (forall c, In c (connectionsFor A st) -> In c connected ->
             In c (receivers connected "messagesRead" out))
  /\ (forall c, In c (connectionsFor B st) ->
                ~ In c (receivers connected "messagesRead" out)).

(** How [updateMany] relates a stored message to what it was. *)
Definition marked_read (chatId userId : string) (m m' : message) : Prop :=
  msg_id m' = msg_id m
  /\ msg_chatId m' = msg_chatId m
  /\ msg_senderId m' = msg_senderId m
  /\ msg_content m' = msg_content m
  /\ (msg_chatId m = chatId -> msg_senderId m <> userId ->
      In userId (msg_isReadBy m'))
  /\ (if unread_by chatId userId m
      then msg_isReadBy m' = msg_isReadBy m ++ [userId]
      else m' = m).

Definition chat_state : state :=
  mkState [("A", entry_of ["a1"]); ("B", entry_of ["b1"])]
    [mkMessage "m1" "C" "A" "hello" ["A"]].

(** A handler whose store operation threw ends with the registry and the
    pushes of the run in which it succeeded, and one error line. *)
Definition failure_tolerated (failed succeeded : state * list effect) : Prop :=
  users (fst failed) = users (fst succeeded)
  /\ pushes (snd failed) = pushes (snd succeeded)
  /\ length (filter is_error (snd failed)) = 1.

(** The event changes nothing and pushes nothing. *)
Definition ignored (ev : event) (st : state) : Prop :=
  fst (step ev st) = st /\ pushes (snd (step ev st)) = [].

(** The events that add or remove a socket: the others leave every
    [socketIds] as it is. *)
Definition changes_membership (ev : event) : bool :=
  match ev with
  | OnRegisterUser _ _ _ | OnDisconnect _ => true
  | _ => false
  end.

(** Every stored message is read by its sender, as the services create
    them. *)
Definition read_by_sender (ms : list message) : Prop :=
  Forall (fun m => In (msg_senderId m) (msg_isReadBy m)) ms.

(** No message lists a reader twice. *)
Definition readers_distinct (ms : list message) : Prop :=
  Forall (fun m => NoDup (msg_isReadBy m)) ms.

Definition sample_chat : chat :=
  mkChat None false ["A"; "B"] (Some "A_B").

Definition two_message_state : state :=
  mkState [("B", entry_of ["b1"])]
    [mkMessage "m1" "C" "A" "hello" ["A"];
     mkMessage "m2" "C" "B" "hi" ["B"]].

Definition sample_stored_chat : stored_chat :=
  mkStoredChat ["A"; "B"] [].

(** The documents a run of [followUserService] saved. *)
Definition saved_docs
    (r : option (user_doc * user_doc) * state * list effect * option chat)
    : option (user_doc * user_doc) :=
  fst (fst (fst r)).

Definition sample_user (following followers : list string) : user_doc :=
  mkUserDoc "Ann" "Lee" following followers [].

(** The times at which a mail was requested. *)
Definition mail_times (out : list monitor_effect) : list Z :=
  flat_map
    (fun e => match e with MailRequested now _ => [now] | _ => [] end)
    out.

(** Each time is at least the cool-down after the one before it,
    starting from [last]. *)
Fixpoint spaced (last : Z) (times : list Z) : Prop :=
  match times with
  | [] => True
  | t :: rest => (ALERT_COOLDOWN <= t - last)%Z /\ spaced t rest
  end.

(** No two stored messages share an id. *)
Definition ids_distinct (ms : list message) : Prop :=
  NoDup (map msg_id ms).

(** * Properties *)

(** ** The model on small inputs *)

Example own_keys_order :
  Obj.keys (Obj.set "b" 1 (Obj.set "2" 2 (Obj.set "a" 3 (Obj.set "10" 4 []))))
  = ["2"; "10"; "a"; "b"].
Proof. reflexivity. Qed.

Example array_index_forms :
  (Obj.array_index "7", Obj.array_index "07", Obj.array_index "4294967295",
   Obj.array_index "64f0")
  = (Some 7%N, None, None, None).
Proof. reflexivity. Qed.

Example register_defaults :
  users (fst (registerUser "c1"
                (mkRegister (VStr "U") (VStr "") VUndefined (VStr "3") (VNum 7))
                true (boot [])))
  = [("U", Entry.mk ["c1"] (VStr "Anon") (VStr "") (VNum 100) (VNum 7) VNull)].
Proof. reflexivity. Qed.

Example offer_reaches_both_sockets :
  snd (relay VideoOffer (offer_to "U") pair_state)
  = [Push (Room "c1") (Signal VideoOffer (offer_to "U"));
     Push (Room "c2") (Signal VideoOffer (offer_to "U"))].
Proof. reflexivity. Qed.

Example moved_then_roster :
  roster_sent
    (snd (run [OnRegisterUser "c1" (reg "A") true;
               OnUserMoved "c1" (mkMoved (VStr "A") (VNum 5) (VNum 6)) true;
               OnJoinTable "c1" (mkJoin (VStr "A") (VStr "t1")) false;
               OnRegisterUser "c2" (reg "A") true]
            (boot [])))
  = [(Self "c1", [mkRoster "A" (VStr "Anon") (VStr "") (VNum 100) (VNum 100)
                    VNull]);
     (Self "c2", [mkRoster "A" (VStr "Anon") (VStr "") (VNum 5) (VNum 6)
                    (VStr "t1")])].
Proof. reflexivity. Qed.

Example private_chat_is_sorted :
  fst (createChatService true [] "u2" (Some ["u1"]) None 2 None)
  = Returned (mkChat None false ["u1"; "u2"] (Some "u1_u2")).
Proof. reflexivity. Qed.

Example trim_blanks : trim "  two words  " = "two words".
Proof. reflexivity. Qed.

(** ** Sets of strings *)

Module StrSetFacts.
Import StrSet.

Lemma has_true_iff (x : string) (s : t) : has x s = true <-> In x s.
Proof.
  unfold has. rewrite existsb_exists. split.
  - intros [y [Hin Heq]]. apply String.eqb_eq in Heq. now subst.
  - intros Hin. exists x. split; [assumption | apply String.eqb_refl].
Qed.

Lemma has_false_iff (x : string) (s : t) : has x s = false <-> ~ In x s.
Proof.
  rewrite <- has_true_iff. destruct (has x s); split; intros H;
    try reflexivity; try discriminate; try (intros K; discriminate K).
  exfalso. now apply H.
Qed.

Lemma in_add (x y : string) (s : t) : In y (add x s) <-> y = x \/ In y s.
Proof.
  unfold add. destruct (has x s) eqn:E.
  - apply has_true_iff in E. split; [now right | intros [-> | H]]; assumption.
  - rewrite in_app_iff. simpl. split.
    + intros [H | [H | []]]; [now right | now left].
    + intros [H | H]; [right; left; now symmetry | now left].
Qed.

Lemma add_nonempty (x : string) (s : t) : add x s <> [].
Proof.
  intros H. assert (K : In x (add x s)) by (apply in_add; now left).
  rewrite H in K. exact K.
Qed.

Lemma add_NoDup (x : string) (s : t) : NoDup s -> NoDup (add x s).
Proof.
  intros H. unfold add. destruct (has x s) eqn:E; [assumption |].
  apply has_false_iff in E.
  apply NoDup_rev in H. rewrite <- (rev_involutive (s ++ [x])).
  apply NoDup_rev. rewrite rev_app_distr. simpl. constructor.
  - now rewrite <- in_rev.
  - assumption.
Qed.


Lemma in_delete (x y : string) (s : t) :
  In y (delete x s) <-> In y s /\ y <> x.
Proof.
  unfold delete. rewrite filter_In. split; intros [H1 H2]; split; trivial.
  - intros ->. now rewrite String.eqb_refl in H2.
  - apply negb_true_iff. apply String.eqb_neq. congruence.
Qed.

Lemma delete_NoDup (x : string) (s : t) : NoDup s -> NoDup (delete x s).
Proof. apply NoDup_filter. Qed.

Lemma size_zero (s : t) : Nat.eqb (size s) 0 = true <-> s = [].
Proof.
  unfold size. rewrite Nat.eqb_eq. apply length_zero_iff_nil.
Qed.

End StrSetFacts.

(** ** Objects as maps *)

Module ObjFacts.
Import Obj.

Section WithValue.
Context {V : Type}.
Implicit Types (o : Obj.t V) (k : string) (v : V).

Lemma get_In k o v : get k o = Some v -> In (k, v) o.
Proof.
  induction o as [| [k' v'] o IH]; simpl; [discriminate |].
  destruct (String.eqb k k') eqn:E.
  - apply String.eqb_eq in E. intros [= ->]. subst. now left.
  - intros H. right. now apply IH.
Qed.

Lemma get_None_keys k o : get k o = None <-> ~ In k (keys o).
Proof.
  induction o as [| [k' v'] o IH]; simpl.
  - split; [intros _ [] | reflexivity].
  - destruct (String.eqb k k') eqn:E.
    + apply String.eqb_eq in E. subst. split; [discriminate |].
      intros H. exfalso. apply H. now left.
    + apply String.eqb_neq in E. rewrite IH. split.
      * intros H [K | K]; [congruence | now apply H].
      * intros H K. apply H. now right.
Qed.

Lemma In_get k o v : NoDup (keys o) -> In (k, v) o -> get k o = Some v.
Proof.
  induction o as [| [k' v'] o IH]; simpl; [intros _ [] |].
  intros Hnd [H | H].
  - injection H as -> ->. now rewrite String.eqb_refl.
  - inversion Hnd as [| ? ? Hnot Hnd']; subst.
    destruct (String.eqb k k') eqn:E.
    + apply String.eqb_eq in E. subst. exfalso. apply Hnot.
      change k' with (fst (k', v)). now apply in_map.
    + now apply IH.
Qed.

(** *** [replace] *)

Lemma keys_replace k v o : keys (replace k v o) = keys o.
Proof.
  induction o as [| [k' v'] o IH]; simpl; [reflexivity |].
  destruct (String.eqb k k'); simpl; [reflexivity | now rewrite IH].
Qed.

Lemma get_replace_same k v o v0 :
  get k o = Some v0 -> get k (replace k v o) = Some v.
Proof.
  induction o as [| [k' v'] o IH]; simpl; [discriminate |].
  destruct (String.eqb k k') eqn:E; simpl; rewrite E; [reflexivity |].
  exact IH.
Qed.

Lemma get_replace_other k k' v o :
  k' <> k -> get k' (replace k v o) = get k' o.
Proof.
  intros Hne. induction o as [| [k0 v0] o IH]; simpl; [reflexivity |].
  destruct (String.eqb k k0) eqn:E; simpl.
  - apply String.eqb_eq in E. subst k0.
    apply String.eqb_neq in Hne. now rewrite Hne.
  - now rewrite IH.
Qed.


Lemma In_replace k v o k' v' :
  In (k', v') (replace k v o) ->
  (k' = k /\ v' = v) \/ In (k', v') o.
Proof.
  induction o as [| [k0 v0] o IH]; simpl; [intros [] |].
  destruct (String.eqb k k0) eqn:E; simpl.
  - apply String.eqb_eq in E. subst.
    intros [H | H]; [left; now injection H as <- <- | right; now right].
  - intros [H | H]; [right; now left |].
    destruct (IH H) as [K | K]; [now left | right; now right].
Qed.

(** *** [insert_new] *)

Lemma insert_index_perm n k v o :
  Permutation (insert_index n k v o) ((k, v) :: o).
Proof.
  induction o as [| [k' v'] o IH]; simpl; [reflexivity |].
  destruct (array_index k') as [m |]; [| reflexivity].
  destruct (N.ltb m n); [| reflexivity].
  rewrite IH. apply perm_swap.
Qed.

Lemma insert_new_perm k v o : Permutation (insert_new k v o) ((k, v) :: o).
Proof.
  unfold insert_new. destruct (array_index k).
  - apply insert_index_perm.
  - symmetry. apply Permutation_cons_append.
Qed.

Lemma In_insert_new k v o kv :
  In kv (insert_new k v o) <-> kv = (k, v) \/ In kv o.
Proof.
  split; intros H.
  - apply (Permutation_in _ (insert_new_perm k v o)) in H.
    destruct H as [H | H]; [left; now symmetry | now right].
  - apply (Permutation_in _ (Permutation_sym (insert_new_perm k v o))).
    destruct H as [H | H]; [left; now symmetry | now right].
Qed.

Lemma get_insert_index n k v o k' :
  get k o = None ->
  get k' (insert_index n k v o) =
  if String.eqb k' k then Some v else get k' o.
Proof.
  induction o as [| [k0 v0] o IH]; simpl; [reflexivity |].
  destruct (String.eqb k k0) eqn:Ek; [discriminate |].
  intros Hnone. apply String.eqb_neq in Ek.
  assert (Hk0 : String.eqb k' k = true -> String.eqb k' k0 = false).
  { intros H. apply String.eqb_eq in H. subst.
    now apply String.eqb_neq. }
  destruct (array_index k0) as [m |].
  - destruct (N.ltb m n); simpl.
    + rewrite (IH Hnone).
      destruct (String.eqb k' k) eqn:E; [| reflexivity].
      now rewrite (Hk0 eq_refl).
    + now destruct (String.eqb k' k).
  - simpl. now destruct (String.eqb k' k).
Qed.

Lemma get_app k o1 o2 :
  get k (o1 ++ o2) =
  match get k o1 with Some w => Some w | None => get k o2 end.
Proof.
  induction o1 as [| [k0 v0] o1 IH]; simpl; [reflexivity |].
  now destruct (String.eqb k k0).
Qed.

Lemma get_insert_new k v o k' :
  get k o = None ->
  get k' (insert_new k v o) = if String.eqb k' k then Some v else get k' o.
Proof.
  intros Hnone. unfold insert_new. destruct (array_index k).
  - now apply get_insert_index.
  - rewrite get_app. simpl. destruct (String.eqb k' k) eqn:E.
    + apply String.eqb_eq in E. subst. now rewrite Hnone.
    + now destruct (get k' o).
Qed.

(** *** [set] *)

Lemma get_set_same k v o : get k (set k v o) = Some v.
Proof.
  unfold set. destruct (get k o) eqn:E.
  - eapply get_replace_same. eassumption.
  - rewrite get_insert_new by assumption. now rewrite String.eqb_refl.
Qed.

Lemma get_set_other k k' v o : k' <> k -> get k' (set k v o) = get k' o.
Proof.
  intros Hne. unfold set. destruct (get k o) eqn:E.
  - now apply get_replace_other.
  - rewrite get_insert_new by assumption.
    apply String.eqb_neq in Hne. now rewrite Hne.
Qed.


Lemma In_set k v o k' v' :
  In (k', v') (set k v o) -> (k' = k /\ v' = v) \/ In (k', v') o.
Proof.
  unfold set. destruct (get k o).
  - apply In_replace.
  - rewrite In_insert_new. intros [H | H]; [left | now right].
    now injection H as -> ->.
Qed.

Lemma Forall_set (P : string * V -> Prop) k v o :
  Forall P o -> P (k, v) -> Forall P (set k v o).
Proof.
  intros Ho Hkv. apply Forall_forall. intros [k' v'] Hin.
  destruct (In_set _ _ _ _ _ Hin) as [[-> ->] | H]; [assumption |].
  rewrite Forall_forall in Ho. now apply Ho.
Qed.

Lemma keys_set_perm k v o :
  Permutation (keys (set k v o))
    (match get k o with Some _ => keys o | None => k :: keys o end).
Proof.
  unfold set. destruct (get k o).
  - now rewrite keys_replace.
  - unfold keys. rewrite (insert_new_perm k v o). reflexivity.
Qed.

Lemma keys_set_NoDup k v o : NoDup (keys o) -> NoDup (keys (set k v o)).
Proof.
  intros H. eapply Permutation_NoDup.
  - symmetry. apply keys_set_perm.
  - destruct (get k o) eqn:E; [assumption |].
    constructor; [now apply get_None_keys | assumption].
Qed.


(** *** [delete] *)

Lemma In_delete k o kv : In kv (delete k o) <-> In kv o /\ fst kv <> k.
Proof.
  unfold delete. rewrite filter_In. split; intros [H1 H2]; split; trivial.
  - intros K. rewrite K, String.eqb_refl in H2. discriminate.
  - apply negb_true_iff, String.eqb_neq. congruence.
Qed.

Lemma get_delete_same k o : get k (delete k o) = None.
Proof.
  apply get_None_keys. unfold keys. rewrite in_map_iff.
  intros [kv [Hk Hin]]. apply In_delete in Hin. now destruct Hin.
Qed.

Lemma get_delete_other k k' o : k' <> k -> get k' (delete k o) = get k' o.
Proof.
  intros Hne. induction o as [| [k0 v0] o IH]; simpl; [reflexivity |].
  destruct (String.eqb k k0) eqn:E; simpl.
  - apply String.eqb_eq in E. subst.
    apply String.eqb_neq in Hne. now rewrite Hne.
  - now rewrite IH.
Qed.

Lemma Forall_delete (P : string * V -> Prop) k o :
  Forall P o -> Forall P (delete k o).
Proof.
  intros H. apply Forall_forall. intros kv Hin.
  apply In_delete in Hin. rewrite Forall_forall in H. now apply H.
Qed.

Lemma keys_delete_NoDup k o : NoDup (keys o) -> NoDup (keys (delete k o)).
Proof.
  induction o as [| [k0 v0] o IH]; simpl; [trivial |].
  intros Hnd. inversion Hnd as [| ? ? Hnot Hnd']; subst.
  destruct (String.eqb k k0); simpl; [now apply IH |].
  constructor; [| now apply IH].
  unfold keys. rewrite in_map_iff. intros [kv [Hk Hin]].
  apply In_delete in Hin. apply Hnot. unfold keys.
  rewrite in_map_iff. exists kv. now destruct Hin.
Qed.

End WithValue.

End ObjFacts.

(** ** Well-formed registries *)

Lemma wf_users_set (k : string) (e : Entry.t) (us : Obj.t Entry.t) :
  wf_users us -> entry_ok (k, e) -> wf_users (Obj.set k e us).
Proof.
  intros [Hk Hf] He. split.
  - now apply ObjFacts.keys_set_NoDup.
  - now apply ObjFacts.Forall_set.
Qed.

Lemma wf_users_delete (k : string) (us : Obj.t Entry.t) :
  wf_users us -> wf_users (Obj.delete k us).
Proof.
  intros [Hk Hf]. split.
  - now apply ObjFacts.keys_delete_NoDup.
  - now apply ObjFacts.Forall_delete.
Qed.

Lemma wf_users_get (k : string) (e : Entry.t) (us : Obj.t Entry.t) :
  wf_users us -> Obj.get k us = Some e -> entry_ok (k, e).
Proof.
  intros [_ Hf] H. apply ObjFacts.get_In in H.
  rewrite Forall_forall in Hf. now apply Hf.
Qed.

Lemma disconnect_scan_outcome (sid : string)
    (entries : list (string * Entry.t)) (us : Obj.t Entry.t) :
  scan_outcome sid entries us (disconnect_scan sid entries us).
Proof.
  induction entries as [| [uid data] rest IH]; simpl.
  - apply scan_miss. intros kv [].
  - destruct (StrSet.has sid (Entry.socketIds data)) eqn:Hhas.
    + apply StrSetFacts.has_true_iff in Hhas.
      destruct (Nat.eqb (StrSet.size (StrSet.delete sid (Entry.socketIds data))) 0)
        eqn:Hsz.
      * apply StrSetFacts.size_zero in Hsz.
        apply scan_last with (data := data); [now left | assumption | assumption].
      * apply scan_more; [now left | assumption |].
        intros K. apply StrSetFacts.size_zero in K. congruence.
    + inversion IH as [Hmiss Heq | uid' data' Hin Hs Hd Heq
                       | uid' data' Hin Hs Hd Heq].
      * apply scan_miss. intros kv [<- | H]; [assumption | now apply Hmiss].
      * apply scan_last with (data := data'); [now right | assumption | assumption].
      * apply scan_more; [now right | assumption | assumption].
Qed.

Lemma wf_registerUser sid p ok st :
  wf_users (users st) -> wf_users (users (fst (registerUser sid p ok st))).
Proof.
  intros Hwf. unfold registerUser. simpl.
  apply wf_users_set; [assumption |]. split; simpl.
  - apply StrSetFacts.add_nonempty.
  - apply StrSetFacts.add_NoDup.
    destruct (Obj.get (to_key (reg_userId p)) (users st)) eqn:E.
    + now apply (wf_users_get _ _ _ Hwf E).
    + constructor.
Qed.

Lemma wf_userMoved sid p ok st :
  wf_users (users st) -> wf_users (users (fst (userMoved sid p ok st))).
Proof.
  intros Hwf. unfold userMoved. simpl.
  destruct (Obj.get (to_key (mv_userId p)) (users st)) eqn:E; [| assumption].
  apply wf_users_set; [assumption |]. exact (wf_users_get _ _ _ Hwf E).
Qed.

Lemma wf_joinTable sid p ok st :
  wf_users (users st) -> wf_users (users (fst (joinTable sid p ok st))).
Proof.
  intros Hwf. unfold joinTable. simpl.
  destruct (Obj.get (to_key (jt_userId p)) (users st)) eqn:E; [| assumption].
  apply wf_users_set; [assumption |]. exact (wf_users_get _ _ _ Hwf E).
Qed.

Lemma wf_disconnect sid st :
  wf_users (users st) -> wf_users (users (fst (disconnect sid st))).
Proof.
  intros Hwf. unfold disconnect.
  pose proof (disconnect_scan_outcome sid (users st) (users st)) as Hout.
  destruct (disconnect_scan sid (users st) (users st)) as [us out]. simpl.
  inversion Hout as [Hmiss | uid data Hin Hs Hd | uid data Hin Hs Hd]; subst.
  - assumption.
  - now apply wf_users_delete.
  - apply wf_users_set; [assumption |]. split; simpl; [assumption |].
    apply StrSetFacts.delete_NoDup.
    destruct Hwf as [_ Hf]. rewrite Forall_forall in Hf.
    now apply (Hf (uid, data)).
Qed.

Lemma wf_step ev st :
  wf_users (users st) -> wf_users (users (fst (step ev st))).
Proof.
  intros Hwf. destruct ev; cbn [step].
  - now apply wf_registerUser.
  - now apply wf_userMoved.
  - now apply wf_joinTable.
  - assumption.
  - unfold markMessagesAsRead. now destruct db_ok.
  - unfold relay. now destruct (Obj.get (to_key (sig_to d)) (users st)).
  - now apply wf_disconnect.
Qed.

Lemma state_after_cons ev evs st :
  state_after (ev :: evs) st = state_after evs (fst (step ev st)).
Proof.
  unfold state_after. simpl.
  destruct (step ev st) as [st1 out1]. simpl.
  now destruct (run evs st1).
Qed.

Lemma wf_state_after evs st :
  wf_users (users st) -> wf_users (users (state_after evs st)).
Proof.
  revert st. induction evs as [| ev evs IH]; intros st Hwf; [assumption |].
  rewrite state_after_cons. apply IH. now apply wf_step.
Qed.

Lemma wf_boot stored : wf_users (users (boot stored)).
Proof. split; simpl; constructor. Qed.

Lemma wf_reachable stored evs :
  wf_users (users (state_after evs (boot stored))).
Proof. apply wf_state_after, wf_boot. Qed.

(** ** No entry without a socket *)





Lemma registerUser_in_connections sid p ok st :
  In sid (connectionsFor (to_key (reg_userId p))
            (fst (registerUser sid p ok st))).
Proof.
  unfold connectionsFor, registerUser. simpl.
  rewrite ObjFacts.get_set_same. simpl.
  apply StrSetFacts.in_add. now left.
Qed.



(** ** Teardown of a user with two connections *)






(** ** One owner per connection *)

Lemma registered_by_more handled ev us :
  registered_by handled us -> registered_by (handled ++ [ev]) us.
Proof.
  intros H k e c Hin Hc. destruct (H k e c Hin Hc) as [p [ok [Hp Hk]]].
  exists p, ok. split; [| assumption]. apply in_app_iff. now left.
Qed.

Lemma registered_by_update handled us k e0 e :
  registered_by handled us ->
  Obj.get k us = Some e0 ->
  (forall c, In c (Entry.socketIds e) -> In c (Entry.socketIds e0)) ->
  registered_by handled (Obj.set k e us).
Proof.
  intros H Hget Hsub k' e' c Hin Hc.
  destruct (ObjFacts.In_set _ _ _ _ _ Hin) as [[-> ->] | Hin'].
  - apply (H k e0 c); [now apply ObjFacts.get_In | now apply Hsub].
  - now apply (H k' e' c).
Qed.

Lemma registered_by_step handled ev st :
  registered_by handled (users st) ->
  registered_by (handled ++ [ev]) (users (fst (step ev st))).
Proof.
  intros H. destruct ev; cbn [step].
  - unfold registerUser. simpl. intros k e c Hin Hc.
    destruct (ObjFacts.In_set _ _ _ _ _ Hin) as [[-> ->] | Hin'].
    + simpl in Hc. apply StrSetFacts.in_add in Hc. destruct Hc as [-> | Hc].
      * exists p, db_ok. split; [| reflexivity].
        apply in_app_iff. right. now left.
      * destruct (Obj.get (to_key (reg_userId p)) (users st)) eqn:E;
          [| now destruct Hc].
        apply ObjFacts.get_In in E.
        now apply (registered_by_more _ _ _ H _ t c).
    + now apply (registered_by_more _ _ _ H k e c).
  - apply registered_by_more. unfold userMoved. simpl.
    destruct (Obj.get (to_key (mv_userId p)) (users st)) eqn:E; [| assumption].
    now apply (registered_by_update _ _ _ t).
  - apply registered_by_more. unfold joinTable. simpl.
    destruct (Obj.get (to_key (jt_userId p)) (users st)) eqn:E; [| assumption].
    now apply (registered_by_update _ _ _ t).
  - now apply registered_by_more.
  - apply registered_by_more. unfold markMessagesAsRead. now destruct db_ok.
  - apply registered_by_more. unfold relay.
    now destruct (Obj.get (to_key (sig_to d)) (users st)).
  - apply registered_by_more. unfold disconnect.
    pose proof (disconnect_scan_outcome sid (users st) (users st)) as Hout.
    destruct (disconnect_scan sid (users st) (users st)) as [us out]. simpl.
    inversion Hout as [Hmiss | uid data Hin Hs Hd | uid data Hin Hs Hd]; subst.
    + assumption.
    + intros k e c Hin' Hc. apply ObjFacts.In_delete in Hin'.
      now apply (H k e c).
    + intros k e c Hin' Hc.
      destruct (ObjFacts.In_set _ _ _ _ _ Hin') as [[-> ->] | Hin''].
      * simpl in Hc. apply StrSetFacts.in_delete in Hc.
        now apply (H uid data c).
      * now apply (H k e c).
Qed.

Lemma registered_by_run evs handled st :
  registered_by handled (users st) ->
  registered_by (handled ++ evs) (users (state_after evs st)).
Proof.
  revert handled st. induction evs as [| ev evs IH]; intros handled st H.
  - now rewrite app_nil_r.
  - rewrite state_after_cons.
    replace (handled ++ ev :: evs) with ((handled ++ [ev]) ++ evs)
      by (now rewrite <- app_assoc).
    apply IH. now apply registered_by_step.
Qed.

(** C5 (amended).  In every state reached by a sequence of events in
    which each socket registers under one user id only, no socket id is in
    the sets of two different user ids. *)
Theorem C5_single_owner (stored : list message) (evs : list event) :
  registers_once evs ->
  single_owner (users (state_after evs (boot stored))).
Proof.
  intros Honce k1 e1 k2 e2 c Hin1 Hin2 Hc1 Hc2.
  assert (H : registered_by ([] ++ evs)
                (users (state_after evs (boot stored)))).
  { apply registered_by_run. intros k e c' []. }
  simpl in H.
  destruct (H k1 e1 c Hin1 Hc1) as [p1 [ok1 [Hp1 <-]]].
  destruct (H k2 e2 c Hin2 Hc2) as [p2 [ok2 [Hp2 <-]]].
  exact (Honce c p1 ok1 p2 ok2 Hp1 Hp2).
Qed.

Lemma C5_single_owner_witness :
  single_owner (users (state_after sample_events (boot []))).
Proof.
  apply (C5_single_owner [] sample_events).
  intros sid p1 ok1 p2 ok2 H1 H2. simpl in H1, H2.
  repeat (destruct H1 as [H1 | H1]; try discriminate H1; try contradiction);
    repeat (destruct H2 as [H2 | H2]; try discriminate H2; try contradiction);
    inversion H1; subst; inversion H2; subst; reflexivity.
Defined.

(** C5 as stated fails: a socket may send [registerUser] twice, under two
    user ids, and is then in both sets. *)
Lemma C5_counterexample :
  ~ single_owner
      (users (state_after
                [OnRegisterUser "c1" (reg "V") true;
                 OnRegisterUser "c1" (reg "U") true]
                (boot []))).
Proof.
  intros H.
  assert (K : "V" = "U").
  { apply (H "V" (Entry.with_socketIds ["c1"] (fresh_entry (reg "V")))
             "U" (Entry.with_socketIds ["c1"] (fresh_entry (reg "U"))) "c1").
    - now left.
    - right. now left.
    - now left.
    - now left. }
  discriminate K.
Qed.

(** ** Registering twice *)

Lemma with_socketIds_same (e : Entry.t) :
  Entry.with_socketIds (Entry.socketIds e) e = e.
Proof. now destruct e. Qed.





(** ** Relays to a user who is offline *)



(** ** Pushes guarded by [socketId] *)

Lemma push_by_socketId_nothing io us body ids :
  push_by_socketId io us body ids = (true, []).
Proof.
  induction ids as [| id rest IH]; simpl; [reflexivity |].
  destruct (Obj.get id us) as [u |]; [| exact IH].
  change (Entry.prop_truthy (Entry.prop "socketId" u)) with false.
  exact IH.
Qed.

(** C10.  An entry of the registry has a [socketIds] set and no
    [socketId]: reading [socketId] yields [undefined].  So whatever the
    registry holds, [createChatService], [createGroupChatService] and
    [sendMessageService] emit nothing, and their [chatCreated] and
    [messageCreated] reach no connection, online participants included. *)
Theorem C10_socketId_pushes_reach_nobody :
  (forall e : Entry.t,
      Entry.prop "socketIds" e = Entry.PSet (Entry.socketIds e)
      /\ Entry.prop "socketId" e = Entry.PValue VUndefined)
  /\ (forall io us fromId toIds groupName found existing,
         snd (createChatService io us fromId toIds groupName found existing)
         = [])
  /\ (forall io us userId toIds groupName,
         snd (createGroupChatService io us userId toIds groupName) = [])
  /\ (forall io st chatId senderId content found_chat found_sender new_id,
         snd (sendMessageService io st chatId senderId content
                found_chat found_sender new_id) = [])
  /\ (forall io st chatId senderId content found_chat found_sender new_id
             connected,
         receivers connected "messageCreated"
           (snd (sendMessageService io st chatId senderId content
                   found_chat found_sender new_id)) = []).
Proof.
  assert (Hchat : forall io us c, snd (broadcast_chat io us c) = []).
  { intros io us c. unfold broadcast_chat.
    now rewrite push_by_socketId_nothing. }
  assert (Hsend : forall io st chatId senderId content found_chat
                         found_sender new_id,
             snd (sendMessageService io st chatId senderId content
                    found_chat found_sender new_id) = []).
  { intros io st chatId senderId content found_chat found_sender new_id.
    unfold sendMessageService.
    destruct found_chat as [c |]; [| reflexivity].
    destruct (negb _); [reflexivity |].
    destruct found_sender as [sender |]; [| reflexivity].
    now rewrite push_by_socketId_nothing. }
  split; [intros e; split; reflexivity |].
  split; [| split; [| split]].
  - intros io us fromId toIds groupName found existing.
    unfold createChatService.
    destruct toIds as [ids |]; [| reflexivity].
    destruct (_ || _)%bool; [reflexivity |].
    destruct (existsb _ ids); [reflexivity |].
    destruct (negb _); [reflexivity |].
    destruct (Nat.eqb _ 2).
    + destruct existing; [reflexivity | apply Hchat].
    + destruct groupName as [g |]; [| reflexivity].
      destruct (String.eqb (trim g) ""); [reflexivity | apply Hchat].
  - intros io us userId toIds groupName. unfold createGroupChatService.
    destruct toIds as [ids |]; [| reflexivity].
    destruct (Nat.ltb _ 2); [reflexivity | apply Hchat].
  - exact Hsend.
  - intros. now rewrite Hsend.
Qed.

(** ** The roster sent on registration *)








(** ** Read receipts *)

Lemma updateMany_read_marks chatId userId ms :
  Forall2 (marked_read chatId userId) ms (updateMany_read chatId userId ms).
Proof.
  induction ms as [| m ms IH]; simpl; constructor; [| exact IH].
  unfold marked_read. destruct (unread_by chatId userId m) eqn:E; simpl.
  - repeat split. intros _ _. apply in_app_iff. right. now left.
  - repeat split. intros Hc Hs. unfold unread_by in E.
    rewrite Hc, String.eqb_refl in E. simpl in E.
    apply String.eqb_neq in Hs. rewrite Hs in E. simpl in E.
    rewrite andb_true_r in E. apply negb_false_iff in E.
    apply existsb_exists in E. destruct E as [u [Hin Hu]].
    apply String.eqb_eq in Hu. now subst.
Qed.

Lemma receivers_rooms connected ev p ids c :
  event_name p = ev ->
  In c (receivers connected ev (map (fun s => Push (Room s) p) ids))
  <-> In c connected /\ In c ids.
Proof.
  intros Hev. unfold receivers. rewrite in_flat_map. split.
  - intros [e [He Hc]]. apply in_map_iff in He. destruct He as [s [<- Hs]].
    rewrite Hev, String.eqb_refl in Hc. simpl in Hc.
    apply filter_In in Hc. destruct Hc as [Hc Heq].
    apply String.eqb_eq in Heq. subst. now split.
  - intros [Hc Hs]. exists (Push (Room c) p). split.
    + apply in_map_iff. now exists c.
    + rewrite Hev, String.eqb_refl. simpl. apply filter_In.
      split; [assumption | apply String.eqb_refl].
Qed.

(** C3 (amended).  When [B] sends [markMessagesAsRead{chatId: C, userId: B}]
    and the store takes the update, every message of [C] not sent by [B]
    is read by [B] afterwards, the other messages are as before, and
    [messagesRead{chatId: C, userId: B}] is pushed to the live connections
    of [B], the user named in the payload, and to no other connection. *)
Theorem C3_read_receipt (sid : string) (chatId userId : jsval) (st : state) :
  let r := markMessagesAsRead sid (mkRead chatId userId) true st in
  users (fst r) = users st
  /\ Forall2 (marked_read (to_key chatId) (to_key userId))
       (messages st) (messages (fst r))
  /\ snd r = map (fun s => Push (Room s) (MessagesRead chatId userId))
               (connectionsFor (to_key userId) st)
  /\ (forall connected c,
         In c (receivers connected "messagesRead" (snd r))
         <-> In c connected /\ In c (connectionsFor (to_key userId) st)).
Proof.
  intros r.
  assert (Hout : snd r = map (fun s => Push (Room s) (MessagesRead chatId userId))
                           (connectionsFor (to_key userId) st)).
  { subst r. unfold markMessagesAsRead, connectionsFor. simpl.
    now destruct (Obj.get (to_key userId) (users st)). }
  split; [reflexivity | split; [| split; [exact Hout |]]].
  - subst r. simpl. apply updateMany_read_marks.
  - intros connected c. rewrite Hout. now apply receivers_rooms.
Qed.

(** C3 as stated fails: the receipt goes to the connection of the reader
    [B], and the connection of [A] gets nothing. *)
Lemma C3_counterexample :
  receivers ["a1"; "b1"] "messagesRead"
    (snd (markMessagesAsRead "b1" (mkRead (VStr "C") (VStr "B")) true chat_state))
  = ["b1"]
  /\ ~ receipt_reaches chat_state ["a1"; "b1"] "b1"
         (mkRead (VStr "C") (VStr "B")) "A" "B".
Proof.
  split; [reflexivity |].
  intros [H _].
  assert (K : In "a1" ["b1"]).
  { apply (H "a1"); now left. }
  destruct K as [K | []]. discriminate K.
Qed.

(** ** Store failures *)

(** C8 (amended).  When the store fails under [registerUser], [userMoved]
    or [joinTable], one error line is written, the registry is changed as
    it is on success and the same pushes go out.  When it fails under
    [markMessagesAsRead], one error line is written, the state is
    unchanged and no [messagesRead] is pushed. *)
Theorem C8_store_failure (sid : string) (st : state) :
  (forall p, failure_tolerated (registerUser sid p false st)
               (registerUser sid p true st))
  /\ (forall p, failure_tolerated (userMoved sid p false st)
                  (userMoved sid p true st))
  /\ (forall p, failure_tolerated (joinTable sid p false st)
                  (joinTable sid p true st))
  /\ (forall p,
         fst (markMessagesAsRead sid p false st) = st
         /\ pushes (snd (markMessagesAsRead sid p false st)) = []
         /\ length (filter is_error (snd (markMessagesAsRead sid p false st)))
            = 1).
Proof.
  repeat split.
Qed.

(** C8 as stated fails for the read receipt: with [B] online, the failed
    update pushes nothing where the successful one pushes [messagesRead]. *)
Lemma C8_counterexample :
  ~ failure_tolerated
      (markMessagesAsRead "b1" (mkRead (VStr "C") (VStr "B")) false chat_state)
      (markMessagesAsRead "b1" (mkRead (VStr "C") (VStr "B")) true chat_state).
Proof.
  intros [_ [H _]]. discriminate H.
Qed.

(** ** Events without a user id *)

Lemma set_users_same st : set_users (users st) st = st.
Proof. now destruct st. Qed.

(** C9 (amended).  An event without [userId] is handled like any other,
    under the key ["undefined"].  [registerUser] puts the socket into the
    entry of that key, sends the roster to the socket and broadcasts
    [userJoined].  [userMoved] and [joinTable] leave the state unchanged
    when no entry has that key; they broadcast to the other connections
    all the same, and nothing they push reaches the sending socket. *)
Theorem C9_missing_userId (sid : string) (ok : bool) (st : state) :
  (forall fn ln x y,
      let r := registerUser sid (mkRegister VUndefined fn ln x y) ok st in
      In sid (connectionsFor "undefined" (fst r))
      /\ exists px py,
           pushes (snd r)
           = [Push (Self sid) (ExistingUsers (map roster_of (users (fst r))));
              Push (Others sid) (UserJoined VUndefined fn ln px py)])
  /\ (forall x y,
         let r := userMoved sid (mkMoved VUndefined x y) ok st in
         (Obj.get "undefined" (users st) = None -> fst r = st)
         /\ pushes (snd r) = [Push (Others sid) (UserMoved VUndefined x y)]
         /\ forall connected,
              ~ In sid (flat_map (delivered connected) (snd r)))
  /\ (forall tableId,
         let r := joinTable sid (mkJoin VUndefined tableId) ok st in
         (Obj.get "undefined" (users st) = None -> fst r = st)
         /\ pushes (snd r) = [Push (Others sid) (TableJoined VUndefined tableId)]
         /\ forall connected,
              ~ In sid (flat_map (delivered connected) (snd r))).
Proof.
  split; [| split].
  - intros fn ln x y r. split.
    + apply (registerUser_in_connections sid (mkRegister VUndefined fn ln x y)).
    + subst r. unfold registerUser. simpl. destruct ok; simpl; eauto.
  - intros x y r. subst r. unfold userMoved. simpl. split; [| split].
    + intros ->. apply set_users_same.
    + now destruct ok.
    + intros connected H. apply in_app_iff in H. destruct H as [H | H].
      * apply filter_In in H. destruct H as [_ H].
        now rewrite String.eqb_refl in H.
      * destruct ok; exact H.
  - intros tableId r. subst r. unfold joinTable. simpl. split; [| split].
    + intros ->. apply set_users_same.
    + now destruct ok.
    + intros connected H. apply in_app_iff in H. destruct H as [H | H].
      * apply filter_In in H. destruct H as [_ H].
        now rewrite String.eqb_refl in H.
      * destruct ok; exact H.
Qed.

Lemma C9_missing_userId_witness :
  fst (userMoved "c1" (mkMoved VUndefined (VNum 1) (VNum 2)) true solo_state)
  = solo_state.
Proof.
  exact (proj1 (proj1 (proj2 (C9_missing_userId "c1" true solo_state))
                  (VNum 1) (VNum 2)) eq_refl).
Defined.

(** C9 as stated fails: on a fresh server a [registerUser] without
    [userId] creates the entry ["undefined"] and pushes the roster, and a
    [userMoved] without [userId] is still broadcast. *)
Lemma C9_counterexample :
  ~ ignored
      (OnRegisterUser "c1"
         (mkRegister VUndefined (VStr "Ada") VUndefined VUndefined VUndefined)
         true)
      (boot [])
  /\ ~ ignored
         (OnUserMoved "c1" (mkMoved VUndefined (VNum 1) (VNum 2)) true)
         (boot []).
Proof.
  split; intros [_ H]; discriminate H.
Qed.

(** * Further properties of the relay *)

(** ** Signalling to a user who is online *)

(** A signalling event whose target has an entry is pushed once to each
    socket of that entry, payload unchanged, and to nothing else; the
    state is left as it was.  The connected sockets that receive it are
    those of the target. *)
Theorem relay_reaches_target_sockets (st : state) (sid : string)
    (e : signal_event) (d : signal_payload) (entry : Entry.t) :
  Obj.get (to_key (sig_to d)) (users st) = Some entry ->
  fst (step (OnSignal sid e d) st) = st
  /\ snd (step (OnSignal sid e d) st)
     = map (fun s => Push (Room s) (Signal e d)) (Entry.socketIds entry)
  /\ (forall connected c,
         In c (receivers connected (signal_name e)
                 (snd (step (OnSignal sid e d) st)))
         <-> In c connected /\ In c (connectionsFor (to_key (sig_to d)) st)).
Proof.
  intros Hget. cbn [step]. unfold relay, connectionsFor. rewrite Hget.
  split; [reflexivity | split; [reflexivity |]].
  intros connected c. cbn [snd]. now apply receivers_rooms.
Qed.

Lemma relay_reaches_target_sockets_witness :
  snd (step (OnSignal "c9" VideoAnswer (offer_to "U")) pair_state)
  = [Push (Room "c1") (Signal VideoAnswer (offer_to "U"));
     Push (Room "c2") (Signal VideoAnswer (offer_to "U"))].
Proof.
  exact (proj1 (proj2 (relay_reaches_target_sockets pair_state "c9"
                         VideoAnswer (offer_to "U")
                         (entry_of ["c1"; "c2"]) eq_refl))).
Defined.

(** ** Who is in the registry *)

Lemma connectionsFor_set_same k e st :
  connectionsFor k (set_users (Obj.set k e (users st)) st)
  = Entry.socketIds e.
Proof.
  unfold connectionsFor. simpl. now rewrite ObjFacts.get_set_same.
Qed.

Lemma connectionsFor_set_other k k' e st :
  k' <> k ->
  connectionsFor k' (set_users (Obj.set k e (users st)) st)
  = connectionsFor k' st.
Proof.
  intros Hne. unfold connectionsFor. simpl.
  now rewrite ObjFacts.get_set_other.
Qed.


(** A handler other than [registerUser] and [disconnect] leaves the keys
    of the registry, their order and every socket set as they are. *)
Theorem membership_untouched (ev : event) (st : state) :
  changes_membership ev = false ->
  Obj.keys (users (fst (step ev st))) = Obj.keys (users st)
  /\ forall uid,
       connectionsFor uid (fst (step ev st)) = connectionsFor uid st.
Proof.
  assert (Hupd : forall k e e',
             Obj.get k (users st) = Some e ->
             Entry.socketIds e' = Entry.socketIds e ->
             Obj.keys (Obj.set k e' (users st)) = Obj.keys (users st)
             /\ forall uid,
                  connectionsFor uid (set_users (Obj.set k e' (users st)) st)
                  = connectionsFor uid st).
  { intros k e e' Hget Hids. split.
    - unfold Obj.set. rewrite Hget. apply ObjFacts.keys_replace.
    - intros uid. destruct (string_dec uid k) as [-> | Hne].
      + rewrite connectionsFor_set_same. unfold connectionsFor.
        now rewrite Hget.
      + now apply connectionsFor_set_other. }
  destruct ev; cbn [changes_membership step]; try discriminate; intros _.
  - unfold userMoved. cbn [fst].
    destruct (Obj.get (to_key (mv_userId p)) (users st)) eqn:E.
    + now apply (Hupd _ t).
    + now rewrite set_users_same.
  - unfold joinTable. cbn [fst].
    destruct (Obj.get (to_key (jt_userId p)) (users st)) eqn:E.
    + now apply (Hupd _ t).
    + now rewrite set_users_same.
  - split; reflexivity.
  - unfold markMessagesAsRead. destruct db_ok; split; reflexivity.
  - unfold relay.
    destruct (Obj.get (to_key (sig_to d)) (users st)); split; reflexivity.
Qed.

Lemma membership_untouched_witness :
  connectionsFor "U"
    (fst (step (OnUserMoved "c1" (mkMoved (VStr "U") (VNum 1) (VNum 2)) false)
            pair_state))
  = ["c1"; "c2"].
Proof.
  exact (proj2 (membership_untouched
                  (OnUserMoved "c1" (mkMoved (VStr "U") (VNum 1) (VNum 2)) false)
                  pair_state eq_refl) "U").
Defined.

(** ** Disconnects *)

Lemma isUserOnline_true uid st :
  isUserOnline uid st = true <-> connectionsFor uid st <> [].
Proof.
  unfold isUserOnline, connectionsFor, StrSet.size, StrSet.empty.
  destruct (Obj.get uid (users st)) as [e |].
  - destruct (Entry.socketIds e); simpl; split; intros H;
      try discriminate; try reflexivity; congruence.
  - split; [discriminate | congruence].
Qed.

Lemma delete_all_single (x : string) (l : list string) :
  NoDup l -> In x l -> StrSet.delete x l = [] -> l = [x].
Proof.
  intros Hnd Hin Hdel. destruct l as [| a l]; [destruct Hin |].
  assert (Ha : a = x).
  { destruct (string_dec a x) as [E | E]; [assumption |].
    assert (K : In a (StrSet.delete x (a :: l))).
    { apply StrSetFacts.in_delete. split; [now left | assumption]. }
    rewrite Hdel in K. destruct K. }
  subst a. f_equal. destruct l as [| b l]; [reflexivity |].
  inversion Hnd as [| ? ? Hnot _]; subst.
  assert (K : In b (StrSet.delete x (x :: b :: l))).
  { apply StrSetFacts.in_delete. split; [right; now left |].
    intros ->. apply Hnot. now left. }
  rewrite Hdel in K. destruct K.
Qed.

(** What a disconnect does to a registry with unique keys and
    duplicate-free sets. *)
Lemma disconnect_cases sid st :
  wf_users (users st) ->
  (disconnect sid st = (st, [])
   /\ forall uid, ~ In sid (connectionsFor uid st))
  \/ exists uid0 data,
       Obj.get uid0 (users st) = Some data
       /\ In sid (Entry.socketIds data)
       /\ ((Entry.socketIds data = [sid]
            /\ disconnect sid st
               = (set_users (Obj.delete uid0 (users st)) st,
                  [Push (Others sid) (UserLeft uid0)]))
           \/ (StrSet.delete sid (Entry.socketIds data) <> []
               /\ disconnect sid st
                  = (set_users
                       (Obj.set uid0
                          (Entry.with_socketIds
                             (StrSet.delete sid (Entry.socketIds data)) data)
                          (users st)) st, []))).
Proof.
  intros Hwf. unfold disconnect.
  pose proof (disconnect_scan_outcome sid (users st) (users st)) as Hout.
  destruct (disconnect_scan sid (users st) (users st)) as [us out].
  destruct Hwf as [Hkeys Hent].
  inversion Hout as [Hmiss | uid data Hin Hs Hd | uid data Hin Hs Hd]; subst.
  - left. split; [now rewrite set_users_same |].
    intros uid Hc. unfold connectionsFor in Hc.
    destruct (Obj.get uid (users st)) as [e |] eqn:E; [| destruct Hc].
    apply ObjFacts.get_In in E. apply Hmiss in E. simpl in E.
    apply StrSetFacts.has_false_iff in E. now apply E.
  - right. exists uid, data. split; [now apply ObjFacts.In_get |].
    split; [assumption | left]. split; [| reflexivity].
    apply delete_all_single; try assumption.
    rewrite Forall_forall in Hent. now apply (Hent (uid, data)).
  - right. exists uid, data. split; [now apply ObjFacts.In_get |].
    split; [assumption | right]. now split.
Qed.

(** In any state the server reaches, a disconnect emits at most one
    event, and it emits [userLeft] for a user exactly when that user was
    online before the disconnect and is not after it. *)
Theorem userLeft_iff_user_goes_offline (stored : list message)
    (evs : list event) (sid : string) :
  let st := state_after evs (boot stored) in
  length (snd (disconnect sid st)) <= 1
  /\ forall uid,
       In (Push (Others sid) (UserLeft uid)) (snd (disconnect sid st))
       <-> isUserOnline uid st = true
           /\ isUserOnline uid (fst (disconnect sid st)) = false.
Proof.
  intros st. pose proof (wf_reachable stored evs) as Hwf. fold st in Hwf.
  assert (Hoff : forall s uid, isUserOnline uid s = false
                               <-> connectionsFor uid s = []).
  { intros s uid.
    unfold isUserOnline, connectionsFor, StrSet.size, StrSet.empty.
    destruct (Obj.get uid (users s)) as [e |]; [| split; reflexivity].
    destruct (Entry.socketIds e); simpl; split; intros K;
      try discriminate; reflexivity. }
  destruct (disconnect_cases sid st Hwf)
    as [[Hd Hno] | [uid0 [data [Hget [Hin [[Hids Hd] | [Hne Hd]]]]]]];
    rewrite Hd; cbn [fst snd length].
  - split; [lia |]. intros uid. split; [intros [] |].
    intros [H1 H2]. rewrite H1 in H2. discriminate.
  - split; [lia |]. intros uid. split.
    + intros [H | []]. injection H as <-. split.
      * apply isUserOnline_true. unfold connectionsFor. rewrite Hget, Hids.
        discriminate.
      * apply Hoff. unfold connectionsFor. cbn [users set_users].
        now rewrite ObjFacts.get_delete_same.
    + intros [H1 H2]. left. f_equal. f_equal.
      destruct (string_dec uid uid0) as [E | E]; [now symmetry |].
      exfalso. apply isUserOnline_true in H1. apply Hoff in H2.
      apply H1. rewrite <- H2. unfold connectionsFor. cbn [users set_users].
      now rewrite ObjFacts.get_delete_other.
  - split; [lia |]. intros uid. split; [intros [] |].
    intros [H1 H2]. apply isUserOnline_true in H1. apply Hoff in H2.
    destruct (string_dec uid uid0) as [-> | E].
    + rewrite connectionsFor_set_same in H2. simpl in H2. congruence.
    + rewrite connectionsFor_set_other in H2 by assumption. congruence.
Qed.

(** In any state the server reaches, a disconnect adds no socket to any
    entry and removes no socket but the one that disconnected. *)
Theorem disconnect_removes_own_socket_only (stored : list message)
    (evs : list event) (sid uid c : string) :
  let st := state_after evs (boot stored) in
  (In c (connectionsFor uid (fst (disconnect sid st))) ->
   In c (connectionsFor uid st))
  /\ (In c (connectionsFor uid st) -> c <> sid ->
      In c (connectionsFor uid (fst (disconnect sid st)))).
Proof.
  intros st. pose proof (wf_reachable stored evs) as Hwf. fold st in Hwf.
  destruct (disconnect_cases sid st Hwf)
    as [[Hd Hno] | [uid0 [data [Hget [Hin [[Hids Hd] | [Hne Hd]]]]]]];
    rewrite Hd; cbn [fst].
  - tauto.
  - unfold connectionsFor. cbn [users set_users].
    destruct (string_dec uid uid0) as [-> | E].
    + rewrite ObjFacts.get_delete_same, Hget, Hids. simpl. intuition.
    + rewrite ObjFacts.get_delete_other by assumption. tauto.
  - destruct (string_dec uid uid0) as [-> | E].
    + rewrite connectionsFor_set_same. simpl.
      rewrite StrSetFacts.in_delete. unfold connectionsFor. rewrite Hget.
      tauto.
    + rewrite connectionsFor_set_other by assumption. tauto.
Qed.

Lemma disconnect_removes_own_socket_only_witness :
  In "c2"
    (connectionsFor "U"
       (fst (disconnect "c1"
               (state_after
                  [OnRegisterUser "c1" (reg "U") true;
                   OnRegisterUser "c2" (reg "U") true]
                  (boot []))))).
Proof.
  apply (proj2 (disconnect_removes_own_socket_only []
                  [OnRegisterUser "c1" (reg "U") true;
                   OnRegisterUser "c2" (reg "U") true]
                  "c1" "U" "c2")).
  - right. now left.
  - discriminate.
Defined.

(** A socket that never sent [registerUser] is in no entry, whatever
    else happened; its disconnect changes nothing and emits nothing. *)
Theorem unregistered_socket_disconnects_silently (stored : list message)
    (evs : list event) (sid : string) :
  (forall p ok, ~ In (OnRegisterUser sid p ok) evs) ->
  let st := state_after evs (boot stored) in
  (forall uid, ~ In sid (connectionsFor uid st))
  /\ disconnect sid st = (st, []).
Proof.
  intros Hnever st.
  assert (Hreg : registered_by ([] ++ evs) (users st)).
  { apply registered_by_run. intros k e c []. }
  simpl in Hreg.
  assert (Hno : forall uid, ~ In sid (connectionsFor uid st)).
  { intros uid Hc. unfold connectionsFor in Hc.
    destruct (Obj.get uid (users st)) as [e |] eqn:E; [| destruct Hc].
    apply ObjFacts.get_In in E.
    destruct (Hreg uid e sid E Hc) as [p [ok [Hin _]]].
    exact (Hnever p ok Hin). }
  split; [exact Hno |].
  pose proof (wf_reachable stored evs) as Hwf. fold st in Hwf.
  destruct (disconnect_cases sid st Hwf)
    as [[Hd _] | [uid0 [data [Hget [Hin _]]]]]; [exact Hd |].
  exfalso. apply (Hno uid0). unfold connectionsFor. now rewrite Hget.
Qed.

Lemma unregistered_socket_disconnects_silently_witness :
  disconnect "c7" (state_after sample_events (boot []))
  = (state_after sample_events (boot []), []).
Proof.
  apply (unregistered_socket_disconnects_silently [] sample_events "c7").
  intros p ok H. simpl in H.
  repeat (destruct H as [H | H]; try discriminate H). exact H.
Defined.





(** ** Reachable registries *)

(** In any state the server reaches, no user id has two entries, no
    socket is twice in a set, and a user is online exactly when the
    registry has an entry for it. *)
Theorem reachable_registry_well_formed (stored : list message)
    (evs : list event) :
  let st := state_after evs (boot stored) in
  NoDup (Obj.keys (users st))
  /\ (forall uid, NoDup (connectionsFor uid st))
  /\ (forall uid,
         isUserOnline uid st = true <-> In uid (Obj.keys (users st))).
Proof.
  intros st. pose proof (wf_reachable stored evs) as Hwf. fold st in Hwf.
  split; [exact (proj1 Hwf) | split].
  - intros uid. unfold connectionsFor.
    destruct (Obj.get uid (users st)) as [e |] eqn:E; [| constructor].
    exact (proj2 (wf_users_get _ _ _ Hwf E)).
  - intros uid. rewrite isUserOnline_true. unfold connectionsFor.
    destruct (Obj.get uid (users st)) as [e |] eqn:E.
    + split.
      * intros _. apply ObjFacts.get_In in E.
        change uid with (fst (uid, e)). now apply in_map.
      * intros _. exact (proj1 (wf_users_get _ _ _ Hwf E)).
    + split; [intros H; now elim H |].
      intros H. now apply ObjFacts.get_None_keys in E.
Qed.

(** ** Follow notifications *)

Lemma pushes_of_pushes (t : string -> target) (p : payload)
    (l : list string) :
  pushes (map (fun s => Push (t s) p) l) = map (fun s => Push (t s) p) l.
Proof.
  induction l as [| a l IH]; simpl; [reflexivity |].
  f_equal. exact IH.
Qed.

Lemma notifyUserFollowed_pushes (st : state) (followedUserId : jsval)
    (body : string) :
  notifyUserFollowed false followedUserId body st = []
  /\ pushes (notifyUserFollowed true followedUserId body st)
     = map (fun s => Push (Room s) (UserFollowed body))
         (connectionsFor (to_key followedUserId) st).
Proof.
  split; [reflexivity |].
  unfold notifyUserFollowed, connectionsFor. cbn [negb].
  destruct (Obj.get (to_key followedUserId) (users st)) as [entry |];
    [| reflexivity].
  destruct (Entry.socketIds entry) as [| s l] eqn:E; [reflexivity |].
  cbn [StrSet.size length Nat.eqb]. apply pushes_of_pushes.
Qed.

(** Without a socket server [notifyUserFollowed] does nothing at all.
    With one, it pushes [userFollowed] with the given body once to each
    socket of the followed user, and the connected sockets that receive
    it are those of that user. *)
Theorem notifyUserFollowed_reaches_followed_user (st : state)
    (followedUserId : jsval) (body : string) :
  notifyUserFollowed false followedUserId body st = []
  /\ pushes (notifyUserFollowed true followedUserId body st)
     = map (fun s => Push (Room s) (UserFollowed body))
         (connectionsFor (to_key followedUserId) st)
  /\ (forall connected c,
         In c (receivers connected "userFollowed"
                 (notifyUserFollowed true followedUserId body st))
         <-> In c connected
             /\ In c (connectionsFor (to_key followedUserId) st)).
Proof.
  destruct (notifyUserFollowed_pushes st followedUserId body) as [H0 H1].
  split; [exact H0 | split; [exact H1 |]].
  unfold notifyUserFollowed, connectionsFor. cbn [negb].
  destruct (Obj.get (to_key followedUserId) (users st)) as [entry |].
  - destruct (Entry.socketIds entry) as [| s l] eqn:E.
    + intros connected c. simpl. tauto.
    + cbn [StrSet.size length Nat.eqb].
      intros connected c. now apply receivers_rooms.
  - intros connected c. simpl. tauto.
Qed.

(** ** Position and table *)

Lemma replace_replace {V : Type} (k : string) (v1 v2 : V) (o : Obj.t V) :
  Obj.replace k v2 (Obj.replace k v1 o) = Obj.replace k v2 o.
Proof.
  induction o as [| [k' v'] o IH]; simpl; [reflexivity |].
  destruct (String.eqb k k') eqn:E; simpl; rewrite E;
    [reflexivity | now rewrite IH].
Qed.

Lemma set_set {V : Type} (k : string) (v1 v2 : V) (o : Obj.t V) :
  Obj.get k o <> None ->
  Obj.set k v2 (Obj.set k v1 o) = Obj.set k v2 o.
Proof.
  intros H. unfold Obj.set at 2.
  destruct (Obj.get k o) as [v0 |] eqn:E; [| congruence].
  unfold Obj.set. rewrite (ObjFacts.get_replace_same k v1 o v0 E), E.
  apply replace_replace.
Qed.

(** For a user with an entry, [userMoved] sets the position and
    [joinTable] the table of that entry and nothing else: names, sockets
    and every other entry stay.  Applied to the same user the two
    commute. *)
Theorem position_and_table_updates (sid1 sid2 : string) (userId x y t : jsval)
    (ok1 ok2 : bool) (st : state) (e : Entry.t) :
  Obj.get (to_key userId) (users st) = Some e ->
  let moved := fst (userMoved sid1 (mkMoved userId x y) ok1 st) in
  let joined := fst (joinTable sid2 (mkJoin userId t) ok2 st) in
  Obj.get (to_key userId) (users moved) = Some (Entry.with_xy x y e)
  /\ Obj.get (to_key userId) (users joined) = Some (Entry.with_tableId t e)
  /\ (forall k, k <> to_key userId ->
                Obj.get k (users moved) = Obj.get k (users st)
                /\ Obj.get k (users joined) = Obj.get k (users st))
  /\ fst (joinTable sid2 (mkJoin userId t) ok2 moved)
     = fst (userMoved sid1 (mkMoved userId x y) ok1 joined).
Proof.
  intros Hget moved joined. subst moved joined.
  unfold userMoved, joinTable. cbn [fst users set_users mv_userId mv_x mv_y
                                     jt_userId jt_tableId].
  rewrite Hget. rewrite !ObjFacts.get_set_same.
  split; [reflexivity | split; [reflexivity | split]].
  - intros k Hne. now rewrite !ObjFacts.get_set_other by assumption.
  - unfold set_users. cbn [users messages]. f_equal.
    rewrite !set_set by congruence. reflexivity.
Qed.

Lemma position_and_table_updates_witness :
  Obj.get "U"
    (users (fst (userMoved "c1" (mkMoved (VStr "U") (VNum 8) (VNum 9)) true
                   pair_state)))
  = Some (Entry.with_xy (VNum 8) (VNum 9) (entry_of ["c1"; "c2"])).
Proof.
  exact (proj1 (position_and_table_updates "c1" "c2" (VStr "U") (VNum 8)
                  (VNum 9) VNull true true pair_state
                  (entry_of ["c1"; "c2"]) eq_refl)).
Defined.

(** ** Unread messages *)

Lemma unread_after_read chatId userId m :
  unread_by chatId userId
    (if unread_by chatId userId m
     then mkMessage (msg_id m) (msg_chatId m) (msg_senderId m)
            (msg_content m) (msg_isReadBy m ++ [userId])
     else m) = false.
Proof.
  destruct (unread_by chatId userId m) eqn:E; [| exact E].
  unfold unread_by in *. simpl.
  rewrite existsb_app. simpl. rewrite String.eqb_refl.
  rewrite orb_true_r. simpl. now rewrite andb_false_r.
Qed.

Lemma unread_other_pair chatId userId chatId' userId' m :
  chatId' <> chatId \/ userId' <> userId ->
  unread_by chatId' userId'
    (if unread_by chatId userId m
     then mkMessage (msg_id m) (msg_chatId m) (msg_senderId m)
            (msg_content m) (msg_isReadBy m ++ [userId])
     else m) = unread_by chatId' userId' m.
Proof.
  intros Hne. destruct (unread_by chatId userId m) eqn:E; [| reflexivity].
  unfold unread_by in *. simpl.
  apply andb_true_iff in E. destruct E as [E _].
  apply andb_true_iff in E. destruct E as [Ec _].
  apply String.eqb_eq in Ec.
  destruct Hne as [Hc | Hu].
  - assert (K : String.eqb (msg_chatId m) chatId' = false).
    { apply String.eqb_neq. congruence. }
    now rewrite K.
  - rewrite existsb_app. simpl.
    apply String.eqb_neq in Hu. rewrite Hu. simpl.
    now rewrite orb_false_r.
Qed.

Lemma filter_length_ext {A : Type} (f g : A -> bool) (h : A -> A)
    (l : list A) :
  (forall a, f (h a) = g a) ->
  length (filter f (map h l)) = length (filter g l).
Proof.
  intros H. induction l as [| a l IH]; simpl; [reflexivity |].
  rewrite H. destruct (g a); simpl; now rewrite IH.
Qed.

Lemma filter_none_length {A : Type} (l : list A) :
  length (filter (fun _ => false) l) = 0.
Proof. induction l; simpl; auto. Qed.

(** The [markMessagesAsRead] of a socket, when the store takes it, brings
    the unread count of that user in that chat to zero, leaves the unread
    count of every other user and of every other chat as it was, lists no
    reader twice if none was listed twice, and a second receipt changes
    nothing more in the store. *)
Theorem read_receipt_clears_unread (sid : string) (chatId userId : jsval)
    (st : state) :
  let st' := fst (markMessagesAsRead sid (mkRead chatId userId) true st) in
  unreadCount (to_key chatId) (to_key userId) (messages st') = 0
  /\ (forall chatId' userId',
         chatId' <> to_key chatId \/ userId' <> to_key userId ->
         unreadCount chatId' userId' (messages st')
         = unreadCount chatId' userId' (messages st))
  /\ (readers_distinct (messages st) -> readers_distinct (messages st'))
  /\ fst (markMessagesAsRead sid (mkRead chatId userId) true st') = st'.
Proof.
  intros st'. subst st'. unfold markMessagesAsRead.
  cbn [fst messages users rd_chatId rd_userId].
  unfold unreadCount, updateMany_read.
  split; [| split; [| split]].
  - rewrite (filter_length_ext _ (fun _ => false)).
    + induction (messages st); simpl; auto.
    + intros m. apply unread_after_read.
  - intros chatId' userId' Hne.
    apply filter_length_ext. intros m. now apply unread_other_pair.
  - unfold readers_distinct. intros H.
    apply Forall_map. eapply Forall_impl; [| exact H].
    intros m Hm. simpl in Hm.
    destruct (unread_by (to_key chatId) (to_key userId) m) eqn:E;
      [| exact Hm].
    simpl. unfold unread_by in E.
    apply andb_true_iff in E. destruct E as [E _].
    apply andb_true_iff in E. destruct E as [_ E].
    apply negb_true_iff in E.
    assert (Hnot : ~ In (to_key userId) (msg_isReadBy m)).
    { intros Hin.
      assert (K : existsb (String.eqb (to_key userId)) (msg_isReadBy m) = true).
      { apply existsb_exists. exists (to_key userId).
        split; [assumption | apply String.eqb_refl]. }
      congruence. }
    apply NoDup_rev in Hm.
    rewrite <- (rev_involutive (msg_isReadBy m ++ [to_key userId])).
    apply NoDup_rev. rewrite rev_app_distr. simpl.
    constructor; [now rewrite <- in_rev | assumption].
  - f_equal. rewrite map_map. apply map_ext. intros m.
    pose proof (unread_after_read (to_key chatId) (to_key userId) m) as H.
    destruct (unread_by (to_key chatId) (to_key userId) m) eqn:E.
    + now rewrite H.
    + now rewrite E.
Qed.

Lemma read_receipt_clears_unread_witness :
  readers_distinct
    (messages
       (fst (markMessagesAsRead "b1" (mkRead (VStr "C") (VStr "B")) true
               two_message_state))).
Proof.
  apply (proj1 (proj2 (proj2 (read_receipt_clears_unread "b1" (VStr "C")
                                (VStr "B") two_message_state)))).
  repeat constructor; simpl; intuition discriminate.
Defined.

Lemma not_read_by_unread chatId userId m :
  In (msg_senderId m) (msg_isReadBy m) ->
  not_read_by chatId userId m = unread_by chatId userId m.
Proof.
  intros Hs. unfold not_read_by, unread_by.
  destruct (String.eqb (msg_chatId m) chatId); [| reflexivity]. simpl.
  destruct (existsb (String.eqb userId) (msg_isReadBy m)) eqn:E;
    [reflexivity |].
  simpl. destruct (String.eqb (msg_senderId m) userId) eqn:Es;
    [| reflexivity].
  apply String.eqb_eq in Es. exfalso.
  assert (K : existsb (String.eqb userId) (msg_isReadBy m) = true).
  { apply existsb_exists. exists (msg_senderId m).
    split; [assumption | now apply String.eqb_eq]. }
  congruence.
Qed.

Lemma read_by_sender_update chatId userId ms :
  read_by_sender ms -> read_by_sender (updateMany_read chatId userId ms).
Proof.
  unfold read_by_sender, updateMany_read. intros H.
  apply Forall_map. eapply Forall_impl; [| exact H].
  intros m Hm. simpl in Hm. destruct (unread_by chatId userId m); [| exact Hm].
  simpl. apply in_app_iff. now left.
Qed.

(** Where every stored message is read by its sender, the update of the
    REST paths (no test on the sender) changes the store exactly as the
    update of the socket handler does.  [markMessagesAsReadService] then
    reports as matched and modified the unread count of that user in that
    chat and leaves that count at zero; when it throws, the store is as
    it was. *)
Theorem rest_and_socket_receipts_agree (chatId userId : string)
    (valid : bool) (found : option chat) (ms : list message) :
  read_by_sender ms ->
  updateMany_read_all chatId userId ms = updateMany_read chatId userId ms
  /\ read_by_sender (updateMany_read chatId userId ms)
  /\ match markMessagesAsReadService chatId userId valid found ms with
     | (Returned (matched, modified), ms') =>
         matched = unreadCount chatId userId ms
         /\ modified = matched
         /\ ms' = updateMany_read chatId userId ms
         /\ unreadCount chatId userId ms' = 0
     | (Thrown _, ms') => ms' = ms
     end.
Proof.
  intros Hs.
  assert (Hall : updateMany_read_all chatId userId ms
                 = updateMany_read chatId userId ms).
  { unfold updateMany_read_all, updateMany_read.
    unfold read_by_sender in Hs. rewrite Forall_forall in Hs.
    apply map_ext_in. intros m Hm.
    now rewrite (not_read_by_unread _ _ _ (Hs m Hm)). }
  assert (Hcount : length (filter (not_read_by chatId userId) ms)
                   = unreadCount chatId userId ms).
  { unfold unreadCount. unfold read_by_sender in Hs.
    clear Hall. induction ms as [| m l IH]; simpl; [reflexivity |].
    inversion Hs as [| ? ? Hm Hl]; subst.
    rewrite (not_read_by_unread _ _ _ Hm).
    destruct (unread_by chatId userId m); simpl; now rewrite (IH Hl). }
  split; [exact Hall | split; [now apply read_by_sender_update |]].
  unfold markMessagesAsReadService.
  destruct valid; simpl; [| reflexivity].
  destruct found as [c |]; [| reflexivity].
  destruct (negb _); [reflexivity |].
  rewrite Hall, Hcount. repeat split.
  unfold unreadCount, updateMany_read.
  rewrite (filter_length_ext _ (fun _ => false)).
  - apply filter_none_length.
  - intros m. apply unread_after_read.
Qed.

Lemma rest_and_socket_receipts_agree_witness :
  updateMany_read_all "C" "B" (messages two_message_state)
  = updateMany_read "C" "B" (messages two_message_state).
Proof.
  apply (rest_and_socket_receipts_agree "C" "B" true (Some sample_chat)
           (messages two_message_state)).
  repeat constructor; simpl; now left.
Defined.

(** ** Sending a message through the service *)

Lemma unreadCount_app chatId userId ms m :
  unreadCount chatId userId (ms ++ [m])
  = unreadCount chatId userId ms
    + (if unread_by chatId userId m then 1 else 0).
Proof.
  unfold unreadCount. rewrite filter_app, length_app. simpl.
  now destruct (unread_by chatId userId m).
Qed.



(** ** Creating chats *)

Lemma dedupe_acc (l : list string) : forall acc,
  NoDup acc ->
  NoDup (fold_left (fun s k => StrSet.add k s) l acc)
  /\ forall q, In q (fold_left (fun s k => StrSet.add k s) l acc)
               <-> In q acc \/ In q l.
Proof.
  induction l as [| a l IH]; intros acc Hnd; simpl.
  - split; [assumption | intros q; tauto].
  - destruct (IH (StrSet.add a acc) (StrSetFacts.add_NoDup a acc Hnd))
      as [H1 H2].
    split; [exact H1 |]. intros q. rewrite H2, StrSetFacts.in_add.
    intuition congruence.
Qed.

Lemma dedupe_NoDup l : NoDup (dedupe l).
Proof. apply dedupe_acc. constructor. Qed.

Lemma in_dedupe l q : In q (dedupe l) <-> In q l.
Proof.
  unfold dedupe. rewrite (proj2 (dedupe_acc l [] (NoDup_nil _))).
  simpl. tauto.
Qed.

Lemma insert_sorted_perm k l : Permutation (insert_sorted k l) (k :: l).
Proof.
  induction l as [| h t IH]; simpl; [reflexivity |].
  destruct (String.leb k h); [reflexivity |].
  rewrite IH. apply perm_swap.
Qed.

Lemma sort_strings_perm l : Permutation (sort_strings l) l.
Proof.
  induction l as [| a l IH]; simpl; [reflexivity |].
  rewrite insert_sorted_perm. now constructor.
Qed.

Lemma sort_pair_sym a b : sort_strings [a; b] = sort_strings [b; a].
Proof.
  simpl. destruct (String.leb a b) eqn:E1, (String.leb b a) eqn:E2;
    try reflexivity.
  - now rewrite (String.leb_antisym a b E1 E2).
  - destruct (String.leb_total a b); congruence.
Qed.

Lemma two_distinct_members (l : list string) (a b : string) :
  NoDup l -> In a l -> In b l -> a <> b -> 2 <= length l.
Proof.
  intros Hnd Ha Hb Hne.
  change 2 with (length [a; b]). apply NoDup_incl_length.
  - constructor; [intros [H | []]; congruence |].
    constructor; [intros [] | constructor].
  - intros q [<- | [<- | []]]; assumption.
Qed.

(** The key of a private chat does not depend on the order of the two
    users, and [createChatService] builds the same private chat, with
    that key, whichever of two distinct users asks.
    [findOrCreatePrivateChat] creates its chat under the same key. *)
Theorem private_chat_key_symmetric (io : bool) (us : Obj.t Entry.t)
    (a b : string) (g1 g2 : option string) :
  a <> b -> a <> "" -> b <> "" ->
  generateParticipantsKey a b = generateParticipantsKey b a
  /\ fst (createChatService io us a (Some [b]) g1 2 None)
     = Returned (mkChat None false (sort_strings [a; b])
                   (Some (generateParticipantsKey a b)))
  /\ fst (createChatService io us b (Some [a]) g2 2 None)
     = fst (createChatService io us a (Some [b]) g1 2 None)
  /\ chat_participantsKey (fst (findOrCreatePrivateChat b a None))
     = Some (generateParticipantsKey a b).
Proof.
  intros Hab Ha Hb.
  assert (Hsym : generateParticipantsKey a b = generateParticipantsKey b a).
  { unfold generateParticipantsKey. now rewrite sort_pair_sym. }
  assert (Hcreate : forall x y g,
             x <> y -> x <> "" ->
             fst (createChatService io us x (Some [y]) g 2 None)
             = Returned (mkChat None false (sort_strings [x; y])
                           (Some (generateParticipantsKey x y)))).
  { intros x y g Hxy Hx. unfold createChatService.
    apply String.eqb_neq in Hx. rewrite Hx. cbn [length Nat.ltb Nat.leb orb].
    cbn [existsb]. pose proof Hxy as Hxy'.
    apply String.eqb_neq in Hxy. rewrite Hxy. cbn [orb].
    unfold dedupe. cbn [fold_left]. unfold StrSet.add at 2. cbn.
    unfold StrSet.add, StrSet.has. cbn [existsb].
    rewrite String.eqb_sym in Hxy. rewrite Hxy. cbn.
    unfold broadcast_chat. rewrite push_by_socketId_nothing. reflexivity. }
  split; [exact Hsym | split; [now apply Hcreate | split]].
  - rewrite !Hcreate by congruence.
    now rewrite sort_pair_sym, <- Hsym.
  - simpl. now rewrite <- Hsym.
Qed.

Lemma private_chat_key_symmetric_witness :
  generateParticipantsKey "u2" "u1" = generateParticipantsKey "u1" "u2".
Proof.
  apply (private_chat_key_symmetric true [] "u2" "u1" None None);
    discriminate.
Defined.

(** A chat [createChatService] creates (no chat existed) has as
    participants the asking user and the listed users, each once, at
    least two of them, and as many as [User.find] returned.  It is
    private exactly when there are two; a private chat has its key and
    its participants in sorted order, a group chat has no key and a name
    that is not blank. *)
Theorem createChatService_builds_sound_chat (io : bool) (us : Obj.t Entry.t)
    (fromId : string) (toIds : list string) (groupName : option string)
    (found : nat) (c : chat) :
  fst (createChatService io us fromId (Some toIds) groupName found None)
  = Returned c ->
  NoDup (chat_participants c)
  /\ (forall q, In q (chat_participants c) <-> q = fromId \/ In q toIds)
  /\ 2 <= length (chat_participants c)
  /\ found = length (chat_participants c)
  /\ (chat_isGroupChat c = false <-> length (chat_participants c) = 2)
  /\ (chat_isGroupChat c = false ->
      chat_participantsKey c
      = Some (String.concat "_" (chat_participants c))
      /\ sort_strings (chat_participants c) = chat_participants c)
  /\ (chat_isGroupChat c = true ->
      chat_participantsKey c = None
      /\ exists g, groupName = Some g /\ chat_groupName c = Some (trim g)
                   /\ trim g <> "").
Proof.
  unfold createChatService.
  destruct (String.eqb fromId "" || Nat.ltb (length toIds) 1)%bool eqn:E0;
    [discriminate |].
  destruct (existsb (String.eqb fromId) toIds) eqn:Eself; [discriminate |].
  destruct (negb (Nat.eqb found (length (dedupe (fromId :: toIds))))) eqn:Ef;
    [discriminate |].
  apply negb_false_iff, Nat.eqb_eq in Ef.
  apply orb_false_iff in E0. destruct E0 as [_ Elen].
  apply Nat.ltb_ge in Elen.
  assert (Hmem : forall q, In q (dedupe (fromId :: toIds))
                           <-> q = fromId \/ In q toIds).
  { intros q. rewrite in_dedupe. simpl. intuition congruence. }
  assert (Hnd := dedupe_NoDup (fromId :: toIds)).
  assert (Hlen : 2 <= length (dedupe (fromId :: toIds))).
  { destruct toIds as [| t rest]; [simpl in Elen; lia |].
    apply (two_distinct_members _ fromId t Hnd).
    - apply Hmem. now left.
    - apply Hmem. right. now left.
    - intros ->. simpl in Eself. now rewrite String.eqb_refl in Eself. }
  destruct (Nat.eqb (length (dedupe (fromId :: toIds))) 2) eqn:E2.
  - apply Nat.eqb_eq in E2.
    unfold broadcast_chat. rewrite push_by_socketId_nothing. cbn [fst].
    intros [= <-]. cbn [chat_participants chat_isGroupChat
                          chat_participantsKey chat_groupName].
    pose proof (sort_strings_perm (dedupe (fromId :: toIds))) as Hp.
    split; [eapply Permutation_NoDup; [symmetry; exact Hp | exact Hnd] |].
    split.
    { intros q. rewrite <- Hmem. split; apply Permutation_in;
        [exact Hp | symmetry; exact Hp]. }
    rewrite (Permutation_length Hp).
    split; [lia | split; [exact Ef | split; [tauto | split]]].
    + intros _. split; [reflexivity |].
      destruct (dedupe (fromId :: toIds)) as [| x [| y [| z r]]];
        try discriminate E2.
      simpl. destruct (String.leb x y) eqn:Exy; simpl.
      * now rewrite Exy.
      * destruct (String.leb y x) eqn:Eyx; [reflexivity |].
        destruct (String.leb_total x y); congruence.
    + discriminate.
  - apply Nat.eqb_neq in E2.
    destruct groupName as [g |]; [| discriminate].
    destruct (String.eqb (trim g) "") eqn:Eg; [discriminate |].
    apply String.eqb_neq in Eg.
    unfold broadcast_chat. rewrite push_by_socketId_nothing. cbn [fst].
    intros [= <-]. cbn [chat_participants chat_isGroupChat
                          chat_participantsKey chat_groupName].
    split; [exact Hnd | split; [exact Hmem |]].
    split; [exact Hlen | split; [exact Ef | split; [| split]]].
    + split; [discriminate | intros; contradiction].
    + discriminate.
    + intros _. split; [reflexivity |]. now exists g.
Qed.

Lemma createChatService_builds_sound_chat_witness :
  NoDup ["u1"; "u2"; "u3"].
Proof.
  exact (proj1 (createChatService_builds_sound_chat true [] "u1"
                  ["u2"; "u3"; "u2"] (Some " team ") 3
                  (mkChat (Some "team") true ["u1"; "u2"; "u3"] None)
                  eq_refl)).
Defined.


(** ** Sending a message through the controller *)


Lemma controller_broadcast_nobody io us chatId m pids :
  (forall pid, In pid pids ->
               match Obj.get pid us with
               | Some entry => Entry.socketIds entry
               | None => []
               end = []) ->
  controller_broadcast io us chatId m pids = (true, []).
Proof.
  induction pids as [| pid rest IH]; [reflexivity |].
  cbn [controller_broadcast]. intros H. rewrite (H pid (or_introl eq_refl)).
  apply IH. intros q Hq. apply H. now right.
Qed.








(** The controller's [markMessagesAsRead] answers 400 and changes
    nothing for an invalid chat id.  Otherwise it answers 200, leaves
    no message of the chat unread by the user, and takes the user, and
    nobody else, out of [notifiedUsers]. *)
Theorem markMessagesAsRead_rest_clears (chatId userId : string) (valid : bool)
    (found : option stored_chat) (ms : list message) :
  let r := markMessagesAsRead_rest chatId userId valid found ms in
  (valid = false -> r = (mkResponse 400 "Invalid chat ID.", ms, found))
  /\ (valid = true ->
      res_status (fst (fst r)) = 200
      /\ length (filter (not_read_by chatId userId) (snd (fst r))) = 0
      /\ forall c, found = Some c ->
           exists c',
             snd r = Some c'
             /\ sc_participants c' = sc_participants c
             /\ forall q, In q (sc_notifiedUsers c')
                          <-> In q (sc_notifiedUsers c) /\ q <> userId).
Proof.
  intros r. subst r. unfold markMessagesAsRead_rest. split; intros ->;
    cbn [negb fst snd res_status]; [reflexivity |].
  split; [reflexivity | split].
  - unfold updateMany_read_all.
    rewrite (filter_length_ext _ (fun _ => false));
      [apply filter_none_length |].
    intros m. destruct (not_read_by chatId userId m) eqn:E; [| exact E].
    unfold not_read_by in *. simpl.
    rewrite existsb_app. simpl. rewrite String.eqb_refl.
    rewrite orb_true_r. simpl. now rewrite andb_false_r.
  - intros c ->. eexists. split; [reflexivity |].
    cbn [sc_participants sc_notifiedUsers]. split; [reflexivity |].
    intros q. rewrite filter_In. rewrite negb_true_iff, String.eqb_neq.
    tauto.
Qed.

Lemma markMessagesAsRead_rest_clears_witness :
  res_status
    (fst (fst (markMessagesAsRead_rest "C" "B" true
                 (Some (mkStoredChat ["A"; "B"] ["B"]))
                 (messages chat_state))))
  = 200.
Proof.
  exact (proj1 (proj2 (markMessagesAsRead_rest_clears "C" "B" true
                         (Some (mkStoredChat ["A"; "B"] ["B"]))
                         (messages chat_state)) eq_refl)).
Defined.

(** ** Follow, unfollow, block *)

Lemma in_push_unless_included id l q :
  In q (push_unless_included id l) <-> In q l \/ q = id.
Proof.
  unfold push_unless_included.
  destruct (existsb (String.eqb id) l) eqn:E.
  - apply existsb_exists in E. destruct E as [x [Hx Heq]].
    apply String.eqb_eq in Heq. subst x. intuition congruence.
  - rewrite in_app_iff. simpl. intuition.
Qed.

Lemma push_unless_included_again id l :
  push_unless_included id (push_unless_included id l)
  = push_unless_included id l.
Proof.
  unfold push_unless_included at 1.
  assert (H : existsb (String.eqb id) (push_unless_included id l) = true).
  { apply existsb_exists. exists id. split; [| apply String.eqb_refl].
    apply in_push_unless_included. now right. }
  now rewrite H.
Qed.

Lemma push_unless_included_NoDup id l :
  NoDup l -> NoDup (push_unless_included id l).
Proof.
  intros Hnd. unfold push_unless_included.
  destruct (existsb (String.eqb id) l) eqn:E; [assumption |].
  assert (Hnot : ~ In id l).
  { intros Hin.
    assert (K : existsb (String.eqb id) l = true).
    { apply existsb_exists. exists id.
      split; [assumption | apply String.eqb_refl]. }
    congruence. }
  apply NoDup_rev in Hnd. rewrite <- (rev_involutive (l ++ [id])).
  apply NoDup_rev. rewrite rev_app_distr. simpl.
  constructor; [now rewrite <- in_rev | assumption].
Qed.

Lemma in_without id l q : In q (without id l) <-> In q l /\ q <> id.
Proof.
  unfold without. rewrite filter_In, negb_true_iff, String.eqb_neq. tauto.
Qed.

Lemma without_absent id l : ~ In id l -> without id l = l.
Proof.
  intros H. unfold without. induction l as [| a l IH]; simpl; [reflexivity |].
  destruct (String.eqb a id) eqn:E.
  - apply String.eqb_eq in E. subst. exfalso. apply H. now left.
  - simpl. rewrite IH; [reflexivity |]. intros K. apply H. now right.
Qed.

Lemma without_pushed id l :
  ~ In id l -> without id (push_unless_included id l) = l.
Proof.
  intros H. unfold push_unless_included.
  destruct (existsb (String.eqb id) l) eqn:E.
  - now apply without_absent.
  - unfold without. rewrite filter_app. simpl. rewrite String.eqb_refl.
    simpl. rewrite app_nil_r. now apply without_absent.
Qed.

(** When both users are found, [followUserService] puts the followed
    user into the follower's [following] and the follower into the
    followed user's [followers], each at most once and nothing else
    changed.  Following again changes neither document.  If neither
    listed the other before, a following [unfollowUserService] gives both
    documents back as they were. *)
Theorem follow_then_unfollow (io : bool) (st : state) (admin a b : string)
    (fa fb : user_doc) (found_chat : option chat) (chat_id new_id : string) :
  exists fa' fb',
    saved_docs (followUserService io st admin a b (Some fa) (Some fb)
                  found_chat chat_id new_id) = Some (fa', fb')
    /\ (forall q, In q (ud_following fa') <-> In q (ud_following fa) \/ q = b)
    /\ (forall q, In q (ud_followers fb') <-> In q (ud_followers fb) \/ q = a)
    /\ (NoDup (ud_following fa) -> NoDup (ud_following fa'))
    /\ (NoDup (ud_followers fb) -> NoDup (ud_followers fb'))
    /\ ud_followers fa' = ud_followers fa
    /\ ud_following fb' = ud_following fb
    /\ (forall io2 st2 found2 chat_id2 new_id2,
           saved_docs (followUserService io2 st2 admin a b (Some fa')
                         (Some fb') found2 chat_id2 new_id2)
           = Some (fa', fb'))
    /\ (~ In b (ud_following fa) -> ~ In a (ud_followers fb) ->
        unfollowUserService a b (Some fa') (Some fb') = Some (fa, fb)).
Proof.
  eexists. eexists. split; [reflexivity |].
  cbn [ud_following ud_followers ud_firstName ud_lastName ud_blockFollowing].
  split; [intros q; apply in_push_unless_included |].
  split; [intros q; apply in_push_unless_included |].
  split; [apply push_unless_included_NoDup |].
  split; [apply push_unless_included_NoDup |].
  split; [reflexivity | split; [reflexivity | split]].
  - intros. unfold saved_docs, followUserService. cbn [fst].
    cbn [ud_following ud_followers ud_firstName ud_lastName
           ud_blockFollowing].
    now rewrite !push_unless_included_again.
  - intros Ha Hb. unfold unfollowUserService.
    cbn [ud_following ud_followers ud_firstName ud_lastName
           ud_blockFollowing].
    rewrite !without_pushed by assumption.
    now destruct fa, fb.
Qed.

Lemma follow_then_unfollow_witness :
  unfollowUserService "a" "b"
    (Some (sample_user ["c"; "b"] [])) (Some (sample_user [] ["a"]))
  = Some (sample_user ["c"] [], sample_user [] []).
Proof.
  destruct (follow_then_unfollow true (boot []) "admin" "a" "b"
              (sample_user ["c"] []) (sample_user [] []) None "ch" "m1")
    as [fa' [fb' [Hsaved [_ [_ [_ [_ [_ [_ [_ Hun]]]]]]]]]].
  injection Hsaved as <- <-.
  apply Hun; simpl; intuition discriminate.
Defined.

(** Each successful [followUserService], a repeated one included,
    pushes [userFollowed] once to every socket of the followed user when
    the socket server runs, pushes no [messageCreated] to anyone, and
    stores one message of the system user, so that the unread count of a
    followed user other than the system user grows by one in that chat.
    When a user is missing nothing is pushed or stored. *)
Theorem followUserService_notifies_and_stores (io : bool) (st : state)
    (admin a b : string) (fa fb : option user_doc) (found_chat : option chat)
    (chat_id new_id : string) :
  let r := followUserService io st admin a b fa fb found_chat chat_id new_id in
  let out := snd (fst r) in
  let st' := snd (fst (fst r)) in
  users st' = users st
  /\ (forall connected, receivers connected "messageCreated" out = [])
  /\ match saved_docs r with
     | Some _ =>
         pushes out
         = (if io
            then map (fun s => Push (Room s)
                                 (UserFollowed
                                    (follow_body a b
                                       (match fa with
                                        | Some f => ud_firstName f
                                        | None => ""
                                        end))))
                   (connectionsFor b st)
            else [])
         /\ (exists m, messages st' = messages st ++ [m]
                       /\ msg_senderId m = admin /\ msg_chatId m = chat_id
                       /\ msg_isReadBy m = [admin])
         /\ (b <> admin ->
             unreadCount chat_id b (messages st')
             = S (unreadCount chat_id b (messages st)))
     | None => (fa = None \/ fb = None) /\ st' = st /\ out = []
     end.
Proof.
  intros r out st'. subst r out st'. unfold saved_docs, followUserService.
  destruct fa as [follower |]; [destruct fb as [followed |] |];
    cbn [fst snd users messages].
  - assert (Hcreated :
      (if io then
         match Obj.get b (users st) with
         | Some userData =>
             if Entry.prop_truthy (Entry.prop "socketId" userData)
             then [Push (Room (Entry.prop_room (Entry.prop "socketId" userData)))
                     (MessageCreated
                        (mkMessageCreated
                           (mkMessage new_id chat_id admin
                              ("Hi " ++ ud_firstName followed
                               ++ ", you were just followed by "
                               ++ ud_firstName follower ++ " "
                               ++ ud_lastName follower ++ "!") [admin])
                           VUndefined VUndefined false))]
             else []
         | None => []
         end
       else []) = []).
    { destruct io; [| reflexivity]. now destruct (Obj.get b (users st)). }
    rewrite Hcreated, app_nil_r.
    pose proof (notifyUserFollowed_pushes st (VStr b)
                  (follow_body a b (ud_firstName follower)))
      as [Hnull Hpush].
    split; [reflexivity | split; [| split; [| split]]].
    + intros connected. destruct io; [| now rewrite Hnull].
      unfold notifyUserFollowed. cbn [negb to_key].
      destruct (Obj.get b (users st)) as [entry |]; [| reflexivity].
      destruct (Nat.eqb (StrSet.size (Entry.socketIds entry)) 0);
        [reflexivity |].
      unfold receivers. induction (Entry.socketIds entry); simpl; auto.
    + destruct io; [exact Hpush | now rewrite Hnull].
    + eexists. split; [reflexivity |]. repeat split.
    + intros Hb. rewrite unreadCount_app. unfold unread_by. simpl.
      rewrite String.eqb_refl.
      assert (K1 : String.eqb b admin = false) by now apply String.eqb_neq.
      assert (K2 : String.eqb admin b = false)
        by (apply String.eqb_neq; congruence).
      rewrite K1, K2. simpl. lia.
  - split; [reflexivity | split; [reflexivity |]].
    split; [now right | split; reflexivity].
  - split; [reflexivity | split; [reflexivity |]].
    split; [now left | split; reflexivity].
Qed.

Lemma followUserService_notifies_and_stores_witness :
  unreadCount "ch" "U"
    (messages
       (snd (fst (fst (followUserService true pair_state "admin" "V" "U"
                         (Some (sample_user [] [])) (Some (sample_user [] []))
                         None "ch" "m1")))))
  = 1.
Proof.
  refine (proj2 (proj2 (proj2 (proj2
            (followUserService_notifies_and_stores true pair_state "admin"
               "V" "U" (Some (sample_user [] [])) (Some (sample_user [] []))
               None "ch" "m1")))) _).
  discriminate.
Defined.

(** When both users are found, [blockUserService] lists the blocked user
    in the blocker's [blockFollowing] and takes each of the two out of
    the other's [following] and [followers]; other users stay in the
    lists.  Nothing in [followUserService] reads [blockFollowing]: run on
    the documents just saved, it makes the blocked user a follower of the
    blocker again. *)
Theorem block_severs_but_does_not_prevent_follow (a b : string)
    (fa fb : user_doc) :
  exists fa' fb',
    blockUserService a b (Some fa) (Some fb) = Some (fa', fb')
    /\ In b (ud_blockFollowing fa')
    /\ ~ In b (ud_following fa') /\ ~ In b (ud_followers fa')
    /\ ~ In a (ud_following fb') /\ ~ In a (ud_followers fb')
    /\ (forall q, q <> b ->
                  (In q (ud_following fa') <-> In q (ud_following fa))
                  /\ (In q (ud_followers fa') <-> In q (ud_followers fa)))
    /\ (forall q, q <> a ->
                  (In q (ud_following fb') <-> In q (ud_following fb))
                  /\ (In q (ud_followers fb') <-> In q (ud_followers fb)))
    /\ (forall io st admin found_chat chat_id new_id,
           exists fb'' fa'',
             saved_docs (followUserService io st admin b a (Some fb')
                           (Some fa') found_chat chat_id new_id)
             = Some (fb'', fa'')
             /\ In a (ud_following fb'') /\ In b (ud_followers fa'')
             /\ In b (ud_blockFollowing fa'')).
Proof.
  eexists. eexists. split; [reflexivity |].
  cbn [ud_following ud_followers ud_blockFollowing].
  split; [apply in_push_unless_included; now right |].
  split; [rewrite in_without; tauto |].
  split; [rewrite in_without; tauto |].
  split; [rewrite in_without; tauto |].
  split; [rewrite in_without; tauto |].
  split; [intros q Hq; rewrite !in_without; tauto |].
  split; [intros q Hq; rewrite !in_without; tauto |].
  intros. eexists. eexists. split; [reflexivity |].
  cbn [ud_following ud_followers ud_blockFollowing].
  split; [apply in_push_unless_included; now right |].
  split; [apply in_push_unless_included; now right |].
  apply in_push_unless_included. now right.
Qed.

(** ** The total of unread messages *)

Lemma filter_length_split {A : Type} (f g h : A -> bool) (l : list A) :
  (forall a, h a = (f a || g a)%bool) ->
  (forall a, (f a && g a)%bool = false) ->
  length (filter h l) = length (filter f l) + length (filter g l).
Proof.
  intros Hor Hdis. induction l as [| a l IH]; simpl; [reflexivity |].
  rewrite Hor. specialize (Hdis a).
  destruct (f a), (g a); simpl in *; try discriminate; rewrite IH; lia.
Qed.

Lemma unread_total_cons (userId c : string) (cs : list string)
    (ms : list message) :
  ~ In c cs ->
  length
    (filter
       (fun m =>
          existsb (String.eqb (msg_chatId m)) (c :: cs)
          && negb (existsb (String.eqb userId) (msg_isReadBy m))
          && negb (String.eqb (msg_senderId m) userId))
       ms)
  = unreadCount c userId ms
    + length
        (filter
           (fun m =>
              existsb (String.eqb (msg_chatId m)) cs
              && negb (existsb (String.eqb userId) (msg_isReadBy m))
              && negb (String.eqb (msg_senderId m) userId))
           ms).
Proof.
  intros Hc. unfold unreadCount. apply filter_length_split.
  - intros m. unfold unread_by. cbn [existsb].
    destruct (String.eqb (msg_chatId m) c),
      (existsb (String.eqb (msg_chatId m)) cs),
      (negb (existsb (String.eqb userId) (msg_isReadBy m))),
      (negb (String.eqb (msg_senderId m) userId)); reflexivity.
  - intros m. unfold unread_by.
    destruct (String.eqb (msg_chatId m) c) eqn:E; [| reflexivity].
    apply String.eqb_eq in E.
    assert (K : existsb (String.eqb (msg_chatId m)) cs = false).
    { destruct (existsb (String.eqb (msg_chatId m)) cs) eqn:Ex;
        [| reflexivity].
      apply existsb_exists in Ex. destruct Ex as [x [Hx Heq]].
      apply String.eqb_eq in Heq. exfalso. apply Hc. congruence. }
    rewrite K. cbn [andb]. apply andb_false_r.
Qed.

(** For a valid user id and chats that are pairwise distinct, the total
    [getUnreadCountService] returns is the sum of the unread counts
    [getUserChatsService] shows for the single chats; for an invalid id
    the service throws. *)
Theorem unread_total_is_sum_of_chats (userId : string) (valid : bool)
    (chatIds : list string) (ms : list message) :
  NoDup chatIds ->
  getUnreadCountService userId valid chatIds ms
  = if valid
    then Returned (list_sum (map (fun c => unreadCount c userId ms) chatIds))
    else Thrown "Invalid user ID.".
Proof.
  intros Hnd. unfold getUnreadCountService.
  destruct valid; [| reflexivity]. cbn [negb]. f_equal.
  induction Hnd as [| c cs Hc Hnd IH].
  - simpl. apply filter_none_length.
  - rewrite unread_total_cons by assumption. simpl. now rewrite IH.
Qed.

Lemma unread_total_is_sum_of_chats_witness :
  getUnreadCountService "B" true ["C"; "D"] (messages two_message_state)
  = Returned 1.
Proof.
  apply (unread_total_is_sum_of_chats "B" true ["C"; "D"]
           (messages two_message_state)).
  repeat constructor; simpl; intuition discriminate.
Defined.

(** ** Sockets left behind *)

(** In a state reached by events in which each socket registers under
    one user id only, a disconnect leaves the socket in no entry.  The
    restriction is needed: in any reachable state where two users hold
    the socket, one of them still holds it after the disconnect. *)
Theorem disconnect_clears_socket (stored : list message) (evs : list event)
    (sid : string) :
  let st := state_after evs (boot stored) in
  (registers_once evs ->
   forall uid, ~ In sid (connectionsFor uid (fst (disconnect sid st))))
  /\ (forall k1 k2,
         k1 <> k2 ->
         In sid (connectionsFor k1 st) -> In sid (connectionsFor k2 st) ->
         exists k, In sid (connectionsFor k (fst (disconnect sid st)))).
Proof.
  intros st. pose proof (wf_reachable stored evs) as Hwf. fold st in Hwf.
  assert (Hreg : registered_by ([] ++ evs) (users st)).
  { apply registered_by_run. intros k e c []. }
  simpl in Hreg.
  assert (Hheld : forall uid, In sid (connectionsFor uid st) ->
                    exists e, In (uid, e) (users st)
                              /\ In sid (Entry.socketIds e)).
  { intros uid H. unfold connectionsFor in H.
    destruct (Obj.get uid (users st)) as [e |] eqn:E; [| destruct H].
    exists e. split; [now apply ObjFacts.get_In | assumption]. }
  destruct (disconnect_cases sid st Hwf)
    as [[Hd Hno] | [uid0 [data [Hget [Hin Hcase]]]]].
  - rewrite Hd. cbn [fst]. split; [intros _; exact Hno |].
    intros k1 k2 _ H1 _. exfalso. now apply (Hno k1).
  - assert (Hother : forall uid, uid <> uid0 ->
               connectionsFor uid (fst (disconnect sid st))
               = connectionsFor uid st).
    { intros uid Hne. destruct Hcase as [[_ Hd] | [_ Hd]]; rewrite Hd;
        cbn [fst].
      - unfold connectionsFor. cbn [users set_users].
        now rewrite ObjFacts.get_delete_other.
      - now apply connectionsFor_set_other. }
    assert (Hself : ~ In sid (connectionsFor uid0 (fst (disconnect sid st)))).
    { destruct Hcase as [[_ Hd] | [_ Hd]]; rewrite Hd; cbn [fst].
      - unfold connectionsFor. cbn [users set_users].
        rewrite ObjFacts.get_delete_same. intros [].
      - rewrite connectionsFor_set_same. simpl.
        rewrite StrSetFacts.in_delete. tauto. }
    split.
    + intros Honce uid Hc.
      destruct (string_dec uid uid0) as [-> | Hne]; [now apply Hself |].
      rewrite Hother in Hc by assumption.
      destruct (Hheld uid Hc) as [e [He Hs]].
      destruct (Hreg uid e sid He Hs) as [p1 [ok1 [Hp1 Hk1]]].
      apply ObjFacts.get_In in Hget.
      destruct (Hreg uid0 data sid Hget Hin) as [p2 [ok2 [Hp2 Hk2]]].
      apply Hne. rewrite <- Hk1, <- Hk2.
      exact (Honce sid p1 ok1 p2 ok2 Hp1 Hp2).
    + intros k1 k2 Hne H1 H2.
      destruct (string_dec k1 uid0) as [-> | Hk1].
      * exists k2. rewrite Hother by congruence. exact H2.
      * exists k1. rewrite Hother by assumption. exact H1.
Qed.

Lemma disconnect_clears_socket_witness :
  ~ In "c1"
      (connectionsFor "U"
         (fst (disconnect "c1" (state_after sample_events (boot []))))).
Proof.
  apply (proj1 (disconnect_clears_socket [] sample_events "c1")).
  intros sid p1 ok1 p2 ok2 H1 H2. simpl in H1, H2.
  repeat (destruct H1 as [H1 | H1]; try discriminate H1; try contradiction);
    repeat (destruct H2 as [H2 | H2]; try discriminate H2; try contradiction);
    inversion H1; subst; inversion H2; subst; reflexivity.
Defined.

(** ** The error monitor *)

Lemma handle_logs_spaced logs : forall last,
  spaced last (mail_times (snd (handle_logs last logs)))
  /\ (forall t, In t (mail_times (snd (handle_logs last logs))) ->
                exists log, In log logs /\ log_now log = t
                            /\ includes "500" (log_data log) = true).
Proof.
  induction logs as [| log rest IH]; intros last.
  - simpl. split; [exact I | intros t []].
  - cbn [handle_logs]. unfold on_log_err.
    destruct (includes "500" (log_data log)) eqn:E500.
    + destruct (log_now log - last <? ALERT_COOLDOWN)%Z eqn:Ecool.
      * destruct (IH last) as [Hs Hin].
        destruct (handle_logs last rest) as [t2 out2]. cbn [snd] in *.
        simpl. split; [exact Hs |].
        intros t Ht. destruct (Hin t Ht) as [l [Hl H]].
        exists l. split; [now right | exact H].
      * destruct (IH (log_now log)) as [Hs Hin].
        destruct (handle_logs (log_now log) rest) as [t2 out2].
        cbn [snd] in *.
        assert (Hmail : mail_times
                  ([Detected (log_data log);
                    MailRequested (log_now log)
                      ("A 500 error occurred: " ++ log_data log);
                    if log_send_ok log then MailSent else MailFailed]
                   ++ out2)
                = log_now log :: mail_times out2).
        { unfold mail_times. simpl. now destruct (log_send_ok log). }
        rewrite Hmail. split.
        -- split; [| exact Hs]. apply Z.ltb_ge in Ecool. exact Ecool.
        -- intros t [<- | Ht].
           ++ exists log. split; [now left | now split].
           ++ destruct (Hin t Ht) as [l [Hl H]].
              exists l. split; [now right | exact H].
    + destruct (IH last) as [Hs Hin].
      destruct (handle_logs last rest) as [t2 out2]. cbn [snd] in *.
      simpl. split; [exact Hs |].
      intros t Ht. destruct (Hin t Ht) as [l [Hl H]].
      exists l. split; [now right | exact H].
Qed.

(** The monitor requests a mail only for a log line that contains
    ["500"], and never with monitoring switched off or without the bus.
    Whatever the order and the times of the log lines, and whether or
    not the mails go out, each request is at least one hour after the
    request before it, and the first at least one hour after time 0. *)
Theorem monitor_alerts_are_rate_limited (ERROR_LOGGING bus_error : bool)
    (logs : list pm2_log) :
  spaced 0 (mail_times (monitorPM2Logs ERROR_LOGGING bus_error logs))
  /\ (forall t,
         In t (mail_times (monitorPM2Logs ERROR_LOGGING bus_error logs)) ->
         ERROR_LOGGING = true /\ bus_error = false
         /\ exists log, In log logs /\ log_now log = t
                        /\ includes "500" (log_data log) = true).
Proof.
  unfold monitorPM2Logs.
  destruct ERROR_LOGGING; cbn [negb]; [| split; [exact I | intros t []]].
  destruct bus_error; [split; [exact I | intros t []] |].
  destruct (handle_logs_spaced logs 0) as [Hs Hin].
  split; [exact Hs |]. intros t Ht. split; [reflexivity | split];
    [reflexivity | now apply Hin].
Qed.

Example monitor_suppresses_within_the_hour :
  mail_times
    (monitorPM2Logs true false
       [mkPm2Log "GET /x 500" 1700000000000 false;
        mkPm2Log "POST /y 500" 1700000001000 true;
        mkPm2Log "GET /z 200" 1700003600000 true;
        mkPm2Log "GET /w 500 again" 1700003600000 true])
  = [1700000000000%Z; 1700003600000%Z].
Proof. reflexivity. Qed.

(** ** Deleting chats and messages *)

(** [deleteChatService] throws and leaves the store as it is unless the
    chat id is valid, the chat exists and the user is a participant.
    Then no message of the chat is left, and the messages of the other
    chats are all kept, in their order, so that the unread counts of the
    other chats are as before. *)
Theorem deleteChatService_removes_the_chat_only (chatId userId : string)
    (valid : bool) (found : option chat) (ms : list message) :
  let r := deleteChatService chatId userId valid found ms in
  (fst r = Returned true
   <-> valid = true
       /\ exists c, found = Some c /\ In userId (chat_participants c))
  /\ (fst r <> Returned true -> snd r = ms)
  /\ (fst r = Returned true ->
      (forall m, In m (snd r) <-> In m ms /\ msg_chatId m <> chatId)
      /\ (forall other u, other <> chatId ->
                          unreadCount other u (snd r) = unreadCount other u ms)
      /\ forall u, unreadCount chatId u (snd r) = 0).
Proof.
  intros r. subst r. unfold deleteChatService.
  destruct valid; cbn [negb fst snd].
  2:{ split; [| split]; [| reflexivity | discriminate].
      split; [discriminate | intros [H _]; discriminate H]. }
  destruct found as [c |]; cbn [fst snd].
  2:{ split; [| split]; [| reflexivity | discriminate].
      split; [discriminate | intros [_ [c [H _]]]; discriminate H]. }
  destruct (existsb (fun p => String.eqb p userId) (chat_participants c))
    eqn:E; cbn [negb fst snd].
  - split; [| split].
    + split; [| reflexivity]. intros _. split; [reflexivity |].
      exists c. split; [reflexivity |].
      apply existsb_exists in E. destruct E as [p [Hp Heq]].
      apply String.eqb_eq in Heq. now subst.
    + intros H. now elim H.
    + intros _. unfold deleteMany_chat. split; [| split].
      * intros m. rewrite filter_In, negb_true_iff, String.eqb_neq. tauto.
      * intros other u Hne. unfold unreadCount.
        induction ms as [| m ms IH]; simpl; [reflexivity |].
        destruct (String.eqb (msg_chatId m) chatId) eqn:Ec; simpl.
        -- apply String.eqb_eq in Ec. unfold unread_by at 2.
           assert (K : String.eqb (msg_chatId m) other = false)
             by (apply String.eqb_neq; congruence).
           rewrite K. simpl. exact IH.
        -- destruct (unread_by other u m); simpl; now rewrite IH.
      * intros u. unfold unreadCount.
        induction ms as [| m ms IH]; simpl; [reflexivity |].
        destruct (String.eqb (msg_chatId m) chatId) eqn:Ec; simpl;
          [exact IH |].
        unfold unread_by at 1. rewrite Ec. simpl. exact IH.
  - split; [| split]; [| reflexivity | discriminate].
    split; [discriminate |]. intros [_ [c' [H Hin]]]. injection H as <-.
    assert (K : existsb (fun p => String.eqb p userId) (chat_participants c)
                = true).
    { apply existsb_exists. exists userId.
      split; [assumption | apply String.eqb_refl]. }
    congruence.
Qed.

Lemma deleteChatService_removes_the_chat_only_witness :
  snd (deleteChatService "C" "Z" true (Some sample_chat)
         (messages two_message_state))
  = messages two_message_state.
Proof.
  apply (proj1 (proj2 (deleteChatService_removes_the_chat_only "C" "Z" true
                         (Some sample_chat) (messages two_message_state)))).
  discriminate.
Defined.

Lemma in_remove_first (f : message -> bool) (id : string)
    (ms : list message) (m0 : message) :
  ids_distinct ms ->
  (forall m, f m = true -> msg_id m = id) ->
  find f ms = Some m0 ->
  forall m, In m (remove_first f ms) <-> In m ms /\ msg_id m <> id.
Proof.
  unfold ids_distinct. intros Hnd Hf.
  induction ms as [| h rest IH]; simpl; [discriminate |].
  inversion Hnd as [| ? ? Hnot Hnd']; subst.
  assert (Hrest : forall m, In m rest -> msg_id m = msg_id h -> False).
  { intros m Hin Heq. apply Hnot. rewrite <- Heq. now apply in_map. }
  destruct (f h) eqn:E.
  - intros _ m. pose proof (Hf h E) as Hid. split.
    + intros Hin. split; [now right |]. intros K.
      apply (Hrest m Hin). congruence.
    + intros [[<- | Hin] Hne]; [congruence | assumption].
  - intros Hfind m. simpl. rewrite (IH Hnd' Hfind).
    apply find_some in Hfind. destruct Hfind as [Hin0 Hf0].
    pose proof (Hf m0 Hf0) as Hid0. split.
    + intros [<- | [Hin Hne]]; [| tauto].
      split; [now left |]. intros K. apply (Hrest m0 Hin0). congruence.
    + intros [[<- | Hin] Hne]; [now left | right; now split].
Qed.

(** With no two messages sharing an id: [deleteMessageService] succeeds
    exactly when the ids are valid and the message exists in that chat
    with the user as its sender, while the controller's [deleteMessage]
    answers 200 exactly when the ids are valid, the chat exists, the user
    is a participant and the message exists in that chat, whoever sent
    it.  On success that message and no other is removed; otherwise the
    store is unchanged. *)
Theorem delete_message_by_sender_or_participant
    (chatId messageId userId : string) (valid : bool)
    (found : option stored_chat) (ms : list message) :
  ids_distinct ms ->
  let s := deleteMessageService chatId messageId userId valid ms in
  let c := deleteMessage chatId messageId userId valid found ms in
  (fst s = Returned true
   <-> valid = true
       /\ exists m, In m ms /\ msg_id m = messageId
                    /\ msg_chatId m = chatId /\ msg_senderId m = userId)
  /\ (res_status (fst c) = 200
      <-> valid = true
          /\ (exists ch, found = Some ch /\ In userId (sc_participants ch))
          /\ exists m, In m ms /\ msg_id m = messageId
                       /\ msg_chatId m = chatId)
  /\ (fst s = Returned true ->
      forall m, In m (snd s) <-> In m ms /\ msg_id m <> messageId)
  /\ (res_status (fst c) = 200 ->
      forall m, In m (snd c) <-> In m ms /\ msg_id m <> messageId)
  /\ (fst s <> Returned true -> snd s = ms)
  /\ (res_status (fst c) <> 200 -> snd c = ms).
Proof.
  intros Hnd s c. subst s c.
  assert (Huniq : forall m1 m2, In m1 ms -> In m2 ms ->
                                msg_id m1 = msg_id m2 -> m1 = m2).
  { unfold ids_distinct in Hnd. clear - Hnd.
    induction ms as [| h rest IH]; intros m1 m2 H1 H2 Heq; [destruct H1 |].
    inversion Hnd as [| ? ? Hnot Hnd']; subst.
    destruct H1 as [<- | H1], H2 as [<- | H2]; trivial.
    - exfalso. apply Hnot. rewrite Heq. now apply in_map.
    - exfalso. apply Hnot. rewrite <- Heq. now apply in_map.
    - now apply IH. }
  assert (Hid : forall m, has_id messageId m = true <-> msg_id m = messageId).
  { intros m. unfold has_id. apply String.eqb_eq. }
  split; [| split; [| split; [| split; [| split]]]].
  - unfold deleteMessageService. destruct valid; cbn [negb fst].
    2:{ split; [discriminate | intros [H _]; discriminate H]. }
    destruct (find (has_id messageId) ms) as [m0 |] eqn:Ef; cbn [fst].
    + pose proof (find_some _ _ Ef) as [Hin0 Hf0]. apply Hid in Hf0.
      destruct (String.eqb (msg_chatId m0) chatId) eqn:Ec; cbn [negb fst].
      * destruct (String.eqb (msg_senderId m0) userId) eqn:Es;
          cbn [negb fst].
        -- split; [| reflexivity]. intros _. split; [reflexivity |].
           exists m0. apply String.eqb_eq in Ec, Es. now repeat split.
        -- split; [discriminate |]. intros [_ [m [Hin [Hi [_ Hs]]]]].
           assert (m = m0) by (apply Huniq; congruence). subst m.
           apply String.eqb_neq in Es. contradiction.
      * split; [discriminate |]. intros [_ [m [Hin [Hi [Hc _]]]]].
        assert (m = m0) by (apply Huniq; congruence). subst m.
        apply String.eqb_neq in Ec. contradiction.
    + split; [discriminate |]. intros [_ [m [Hin [Hi _]]]].
      pose proof (find_none _ _ Ef m Hin) as K.
      apply Hid in Hi. congruence.
  - unfold deleteMessage. destruct valid; cbn [negb fst res_status].
    2:{ split; [discriminate | intros [H _]; discriminate H]. }
    destruct found as [ch |]; cbn [fst res_status].
    2:{ split; [discriminate | intros [_ [[ch [H _]] _]]; discriminate H]. }
    destruct (existsb (fun p => String.eqb p userId) (sc_participants ch))
      eqn:Ep; cbn [negb fst res_status].
    2:{ split; [discriminate |]. intros [_ [[ch' [H Hin]] _]].
        injection H as <-.
        assert (K : existsb (fun p => String.eqb p userId)
                      (sc_participants ch) = true).
        { apply existsb_exists. exists userId.
          split; [assumption | apply String.eqb_refl]. }
        congruence. }
    destruct (find _ ms) as [m0 |] eqn:Ef; cbn [fst res_status].
    + split; [| reflexivity]. intros _. split; [reflexivity | split].
      * exists ch. split; [reflexivity |].
        apply existsb_exists in Ep. destruct Ep as [p [Hp Heq]].
        apply String.eqb_eq in Heq. now subst.
      * pose proof (find_some _ _ Ef) as [Hin0 Hf0].
        apply andb_true_iff in Hf0. destruct Hf0 as [H1 H2].
        exists m0. apply Hid in H1. apply String.eqb_eq in H2.
        now repeat split.
    + split; [discriminate |]. intros [_ [_ [m [Hin [Hi Hc]]]]].
      pose proof (find_none _ _ Ef m Hin) as K. cbv beta in K.
      apply Hid in Hi. apply String.eqb_eq in Hc.
      rewrite Hi, Hc in K. discriminate K.
  - unfold deleteMessageService. destruct valid; cbn [negb fst snd];
      [| discriminate].
    destruct (find (has_id messageId) ms) as [m0 |] eqn:Ef; cbn [fst snd];
      [| discriminate].
    destruct (negb (String.eqb (msg_chatId m0) chatId)); [discriminate |].
    destruct (negb (String.eqb (msg_senderId m0) userId)); [discriminate |].
    intros _. cbn [snd].
    apply (in_remove_first _ messageId ms m0 Hnd); [| exact Ef].
    intros m. apply Hid.
  - unfold deleteMessage. destruct valid; cbn [negb fst snd res_status];
      [| discriminate].
    destruct found as [ch |]; cbn [fst snd res_status]; [| discriminate].
    destruct (negb _); [discriminate |].
    destruct (find _ ms) as [m0 |] eqn:Ef; cbn [fst snd res_status];
      [| discriminate].
    intros _. apply (in_remove_first _ messageId ms m0 Hnd); [| exact Ef].
    intros m H. apply andb_true_iff in H. now apply Hid.
  - unfold deleteMessageService. destruct valid; cbn [negb fst snd];
      [| reflexivity].
    destruct (find (has_id messageId) ms) as [m0 |]; [| reflexivity].
    destruct (negb (String.eqb (msg_chatId m0) chatId)); [reflexivity |].
    destruct (negb (String.eqb (msg_senderId m0) userId)); [reflexivity |].
    intros H. now elim H.
  - unfold deleteMessage. destruct valid; cbn [negb fst snd res_status];
      [| reflexivity].
    destruct found as [ch |]; [| reflexivity].
    destruct (negb _); [reflexivity |].
    destruct (find _ ms) as [m0 |]; [| reflexivity].
    intros H. now elim H.
Qed.

Lemma delete_message_by_sender_or_participant_witness :
  res_status
    (fst (deleteMessage "C" "m1" "B" true (Some sample_stored_chat)
            (messages two_message_state))) = 200
  /\ fst (deleteMessageService "C" "m1" "B" true (messages two_message_state))
     <> Returned true.
Proof.
  assert (Hd : ids_distinct (messages two_message_state)).
  { repeat constructor; simpl; intuition discriminate. }
  pose proof (delete_message_by_sender_or_participant "C" "m1" "B" true
                (Some sample_stored_chat) (messages two_message_state) Hd)
    as [Hs [Hc _]].
  split.
  - apply Hc. split; [reflexivity | split].
    + exists sample_stored_chat. split; [reflexivity | right; now left].
    + eexists. split; [left; reflexivity | now split].
  - intros K. apply Hs in K. destruct K as [_ [m [Hin [Hi [_ Hsend]]]]].
    destruct Hin as [<- | [<- | []]]; discriminate.
Defined.
